(** * Normalisation layers of [equinox.nn]: [LayerNorm] and [GroupNorm]

    A shallow embedding of [equinox/nn/_normalisation.py].

    - Python exceptions are an error monad ([result]).
    - A JAX array is a shape together with its elements in row-major order.
    - The array library ([jax.numpy], [jax.lax]) is consumed through an
      interface of scalar primitives ([ArrayLib]); the structural results
      hold for every implementation of that interface, the numerical ones are
      stated for its exact-arithmetic instance over the real numbers, and
      what rounding and overflow do to them is shown on its single-precision
      instance. *)

From Stdlib Require Import String ZArith Bool Lia Reals Lra Arith List.
From Stdlib Require Floats.SpecFloat.
Import ListNotations.

Set Implicit Arguments.

(** ** Python: exceptions and integer arithmetic *)

Inductive exn : Type :=
| ValueError (msg : string)
| TypeError (msg : string)
| ZeroDivisionError
| IndexError
| AttributeError.

Inductive result (A : Type) : Type :=
| Ok (a : A)
| Raise (e : exn).

Arguments Ok {A} a.
Arguments Raise {A} e.

Definition bind {A B : Type} (m : result A) (k : A -> result B) : result B :=
  match m with
  | Ok a => k a
  | Raise e => Raise e
  end.

Notation "x <- m ;; k" := (bind m (fun x => k))
  (at level 61, m at next level, right associativity).

Definition succeeds {A : Type} (m : result A) : bool :=
  match m with Ok _ => true | Raise _ => false end.

(** [a % b] on Python integers: the remainder takes the sign of the divisor,
    and a zero divisor raises. *)
Definition py_mod (a b : Z) : result Z :=
  if (b =? 0)%Z then Raise ZeroDivisionError else Ok (a mod b)%Z.

(** [a // b] on Python integers: floor division. *)
Definition py_floordiv (a b : Z) : result Z :=
  if (b =? 0)%Z then Raise ZeroDivisionError else Ok (a / b)%Z.

(** ** Arrays *)

Record Array (T : Type) : Type := mkArray {
  shape : list nat;
  data : list T
}.

Arguments mkArray {T} shape data.
Arguments shape {T} a.
Arguments data {T} a.

(** Number of elements of an array of the given shape. *)
Definition numel (s : list nat) : nat := fold_right Nat.mul 1 s.

(** The representation invariant of an array. *)
Definition well_formed {T : Type} (x : Array T) : Prop :=
  length (data x) = numel (shape x).

(** [PRNGKey] of [equinox._custom_types]: a key array of unsigned words. *)
Definition PRNGKey : Type := list Z.

(** The [shape] argument accepted by [jnp.ones] and [jnp.zeros]:
    [None], an [int], or a sequence of [int]. *)
Inductive shape_arg : Type :=
| ShapeNone
| ShapeInt (n : Z)
| ShapeSeq (dims : list Z).

(** The scalar primitives of the array library. [mean_red] and [var_red] are
    the full reductions behind [jnp.mean] and [jnp.var]. *)
Class ArrayLib (T : Type) : Type := {
  lit0 : T;
  lit1 : T;
  add : T -> T -> T;
  sub : T -> T -> T;
  mul : T -> T -> T;
  maximum : T -> T -> T;
  rsqrt : T -> T;
  mean_red : list T -> T;
  var_red : list T -> T
}.

Section Jnp.
Context {T : Type} {L : ArrayLib T}.

(** The first [n] consecutive blocks of [k] elements of [l]. *)
Fixpoint chunks (k n : nat) (l : list T) : list (list T) :=
  match n with
  | O => []
  | S n' => firstn k l :: chunks k n' (skipn k l)
  end.

(** *** Broadcasting *)

(** Left-pad a shape with ones up to [n] axes. *)
Definition pad_shape (n : nat) (s : list nat) : list nat :=
  repeat 1 (n - length s) ++ s.

(** Axis-wise broadcast of two shapes of the same rank. *)
Fixpoint broadcast_dims (s t : list nat) : option (list nat) :=
  match s, t with
  | [], [] => Some []
  | a :: s', b :: t' =>
      match broadcast_dims s' t' with
      | None => None
      | Some r =>
          if a =? b then Some (a :: r)
          else if a =? 1 then Some (b :: r)
          else if b =? 1 then Some (a :: r)
          else None
      end
  | _, _ => None
  end.

Definition broadcast_shapes (s t : list nat) : option (list nat) :=
  let n := Nat.max (length s) (length t) in
  broadcast_dims (pad_shape n s) (pad_shape n t).

(** Replicate the elements of an array of shape [s] to the shape [t] of the
    same rank, where every axis of [s] either agrees with [t] or is [1]. *)
Fixpoint expand (s t : list nat) (d : list T) : list T :=
  match s, t with
  | a :: s', b :: t' =>
      if a =? b
      then concat (map (expand s' t') (chunks (numel s') a d))
      else concat (repeat (expand s' t' d) b)
  | _, _ => d
  end.

(** Whether an array of shape [s] may be broadcast to the shape [t]. *)
Definition broadcastable_to (s t : list nat) : bool :=
  (length s <=? length t) &&
  forallb (fun p => (fst p =? snd p) || (fst p =? 1))
          (combine (pad_shape (length t) s) t).

Definition expand_to (x : Array T) (t : list nat) : list T :=
  expand (pad_shape (length t) (shape x)) t (data x).

(** [jnp.broadcast_to(x, t)] *)
Definition jnp_broadcast_to (x : Array T) (t : list nat) : result (Array T) :=
  if broadcastable_to (shape x) t
  then Ok (mkArray t (expand_to x t))
  else Raise (ValueError "Incompatible shapes for broadcasting").

Fixpoint map2 (f : T -> T -> T) (l1 l2 : list T) : list T :=
  match l1, l2 with
  | a :: l1', b :: l2' => f a b :: map2 f l1' l2'
  | _, _ => []
  end.

(** An elementwise binary operator on arrays, with broadcasting. Operands
    of different ranks are first aligned by [jnp], which raises [ValueError]
    when they do not fit; operands of the same rank go straight to the [lax]
    primitive, which raises [TypeError]. *)
Definition binop (f : T -> T -> T) (a b : Array T) : result (Array T) :=
  match broadcast_shapes (shape a) (shape b) with
  | None =>
      if length (shape a) =? length (shape b)
      then Raise (TypeError "got incompatible shapes for broadcasting")
      else Raise (ValueError "Incompatible shapes for broadcasting")
  | Some t => Ok (mkArray t (map2 f (expand_to a t) (expand_to b t)))
  end.

(** An elementwise operator between an array and a Python scalar. *)
Definition pointwise (f : T -> T) (a : Array T) : Array T :=
  mkArray (shape a) (map f (data a)).

(** *** Reductions with [keepdims=True] *)

Definition keepdims (s : list nat) : list nat := map (fun _ => 1) s.

(** [jnp.mean(x, keepdims=True)] *)
Definition jnp_mean (x : Array T) : Array T :=
  mkArray (keepdims (shape x)) [mean_red (data x)].

(** [jnp.var(x, keepdims=True)] *)
Definition jnp_var (x : Array T) : Array T :=
  mkArray (keepdims (shape x)) [var_red (data x)].

(** *** Reshaping and mapping over the leading axis *)

(** [x.reshape] with the new dimensions [dims]. A negative entry is
    refused: [-1] asks for that axis to be inferred, which this module
    never relies on. *)
Definition reshape (x : Array T) (dims : list Z) : result (Array T) :=
  if existsb (fun d => d <? 0)%Z dims
  then Raise (TypeError "reshape: negative dimension")
  else
    let s := map Z.to_nat dims in
    if numel s =? numel (shape x)
    then Ok (mkArray s (data x))
    else Raise (TypeError "cannot reshape array").

(** The slices of [y] along its leading axis. *)
Definition unstack (n : nat) (s : list nat) (d : list T) : list (Array T) :=
  map (mkArray s) (chunks (numel s) n d).

(** [jax.vmap(f)(y)] for a function [f] whose result shape is determined
    by its argument's shape. *)
Definition vmap (f : Array T -> Array T) (y : Array T) : result (Array T) :=
  match shape y with
  | [] => Raise (ValueError "vmap was requested to map its argument along axis 0")
  | n :: s =>
      let outs := map f (unstack n s (data y)) in
      Ok (mkArray (n :: shape (f (mkArray s (firstn (numel s) (data y)))))
                  (concat (map data outs)))
  end.

(** *** Array creation *)

Definition canonicalize_shape (s : shape_arg) : result (list nat) :=
  match s with
  | ShapeNone =>
      Raise (TypeError "Shapes must be 1D sequences of concrete values of integer type")
  | ShapeInt n =>
      if (n <? 0)%Z
      then Raise (TypeError "Shapes must be sequences of non-negative integers")
      else Ok [Z.to_nat n]
  | ShapeSeq dims =>
      if existsb (fun d => d <? 0)%Z dims
      then Raise (TypeError "Shapes must be sequences of non-negative integers")
      else Ok (map Z.to_nat dims)
  end.

Definition full (v : T) (s : shape_arg) : result (Array T) :=
  sh <- canonicalize_shape s ;;
  Ok (mkArray sh (repeat v (numel sh))).

(** [jnp.ones(shape)] *)
Definition jnp_ones (s : shape_arg) : result (Array T) := full lit1 s.

(** [jnp.zeros(shape)] *)
Definition jnp_zeros (s : shape_arg) : result (Array T) := full lit0 s.

(** Modelled from the spec: [left_broadcast_to] of [equinox._misc], which is
    not part of the sources at hand. A parameter of shape [(C,)] is viewed
    as [(C, 1, ..., 1)], with one singleton axis for every trailing axis of
    the target, and broadcast to the target shape. *)
Definition left_broadcast_to (arr : Array T) (shp : list nat) : result (Array T) :=
  let s := shape arr ++ repeat 1 (length shp - length (shape arr)) in
  jnp_broadcast_to (mkArray s (data arr)) shp.

End Jnp.

(** ** [class LayerNorm(Module)] *)

Module LayerNorm.
Section Def.
Context {T : Type} {L : ArrayLib T}.

Record t : Type := mk {
  shape : shape_arg;
  eps : T;
  use_weight : bool;
  use_bias : bool;
  weight : option (Array T);
  bias : option (Array T)
}.

Definition deprecation : string :=
  "LayerNorm(elementwise_affine=...) is deprecated in favour of LayerNorm(use_weight=...) and LayerNorm(use_bias=...)".

(** [LayerNorm.__init__]. The result pairs the warnings issued through
    [warnings.warn] with the outcome of the construction. The defaults of
    the source are [eps=1e-5], [use_weight=True], [use_bias=True] and
    [elementwise_affine=None]. *)
Definition __init__ (shape : shape_arg) (eps : T) (use_weight use_bias : bool)
    (elementwise_affine : option bool) : list string * result t :=
  let '(use_weight, use_bias, warned) :=
    match elementwise_affine with
    | Some b => (b, b, [deprecation])
    | None => (use_weight, use_bias, [])
    end in
  (warned,
   weight <- (if use_weight
              then w <- jnp_ones shape ;; Ok (Some w)
              else Ok None) ;;
   bias <- (if use_bias
            then b <- jnp_zeros shape ;; Ok (Some b)
            else Ok None) ;;
   Ok (mk shape eps use_weight use_bias weight bias)).

(** The locals [mean] and [inv] of [__call__]. *)
Definition call_mean (x : Array T) : Array T := jnp_mean x.

Definition call_inv (self : t) (x : Array T) : Array T :=
  let variance := jnp_var x in
  let variance := pointwise (maximum lit0) variance in
  pointwise rsqrt (pointwise (fun v => add v (eps self)) variance).

(** [out = (x - mean) * inv] *)
Definition normalised (self : t) (x : Array T) : result (Array T) :=
  d <- binop sub x (call_mean x) ;;
  binop mul d (call_inv self x).

(** [LayerNorm.__call__] *)
Definition __call__ (self : t) (x : Array T) (key : option PRNGKey)
    : result (Array T) :=
  out <- normalised self x ;;
  out <- (if use_weight self
          then match weight self with
               | Some w => binop mul w out
               | None => Raise (TypeError "unsupported operand type(s) for *")
               end
          else Ok out) ;;
  out <- (if use_bias self
          then match bias self with
               | Some b => binop add out b
               | None => Raise (TypeError "unsupported operand type(s) for +")
               end
          else Ok out) ;;
  Ok out.
End Def.
End LayerNorm.

(** ** [class GroupNorm(Module)] *)

Module GroupNorm.
Section Def.
Context {T : Type} {L : ArrayLib T}.

Record t : Type := mk {
  groups : Z;
  channels : option Z;
  eps : T;
  channelwise_affine : bool;
  weight : option (Array T);
  bias : option (Array T)
}.

Definition not_divisible : string :=
  "The number of groups must divide the number of channels.".

Definition missing_channels : string :=
  "The number of channels should be specified if `channelwise_affine=True`".

(** The argument of [jnp.ones(channels)]. *)
Definition channels_shape (channels : option Z) : shape_arg :=
  match channels with
  | Some c => ShapeInt c
  | None => ShapeNone
  end.

(** [GroupNorm.__init__]. The defaults of the source are [channels=None],
    [eps=1e-5] and [channelwise_affine=True]. *)
Definition __init__ (groups : Z) (channels : option Z) (eps : T)
    (channelwise_affine : bool) : result t :=
  mismatch <- match channels with
              | Some c => r <- py_mod c groups ;; Ok (negb (r =? 0)%Z)
              | None => Ok false
              end ;;
  if mismatch then Raise (ValueError not_divisible)
  else
    if match channels with None => true | Some _ => false end
       && channelwise_affine
    then Raise (ValueError missing_channels)
    else
      weight <- (if channelwise_affine
                 then w <- jnp_ones (channels_shape channels) ;; Ok (Some w)
                 else Ok None) ;;
      bias <- (if channelwise_affine
               then b <- jnp_zeros (channels_shape channels) ;; Ok (Some b)
               else Ok None) ;;
      Ok (mk groups channels eps channelwise_affine weight bias).

(** The local [inv] of [__call__], from the regrouped input [y]. *)
Definition call_inv (self : t) (y : Array T) : result (Array T) :=
  variance <- vmap jnp_var y ;;
  let variance := pointwise (maximum lit0) variance in
  Ok (pointwise rsqrt (pointwise (fun v => add v (eps self)) variance)).

(** The first lines of [__call__]: regroup, normalise each group, and
    restore the shape of [x]. *)
Definition normalised (self : t) (x : Array T) : result (Array T) :=
  channels <- match shape x with
              | [] => Raise IndexError
              | c :: _ => Ok (Z.of_nat c)
              end ;;
  per_group <- py_floordiv channels (groups self) ;;
  y <- reshape x (groups self :: per_group
                    :: map Z.of_nat (tl (shape x))) ;;
  mean <- vmap jnp_mean y ;;
  inv <- call_inv self y ;;
  d <- binop sub y mean ;;
  out <- binop mul d inv ;;
  reshape out (map Z.of_nat (shape x)).

(** [GroupNorm.__call__] *)
Definition __call__ (self : t) (x : Array T) (key : option PRNGKey)
    : result (Array T) :=
  out <- normalised self x ;;
  if channelwise_affine self
  then
    weight <- match weight self with
              | Some w => left_broadcast_to w (shape out)
              | None => Raise AttributeError
              end ;;
    bias <- match bias self with
            | Some b => left_broadcast_to b (shape out)
            | None => Raise AttributeError
            end ;;
    scaled <- binop mul weight out ;;
    binop add scaled bias
  else Ok out.
End Def.
End GroupNorm.

(** ** The exact-arithmetic array library

    The scalar primitives over the real numbers: no rounding, no overflow,
    no underflow. [rsqrt] is [1 / sqrt v], which says what the code computes
    only for [v > 0]; where a result over this instance depends on the value
    of [rsqrt], it carries the hypothesis that its argument is positive. *)

Definition Rsum (l : list R) : R := fold_right Rplus 0%R l.

(** [jnp.mean]: the sum of the elements over their count. *)
Definition Rmean (l : list R) : R := (Rsum l / INR (length l))%R.

(** [jnp.var] with its default [ddof=0]: the mean of the squared deviations
    from the mean. *)
Definition Rvar (l : list R) : R :=
  Rmean (map (fun v => ((v - Rmean l) * (v - Rmean l))%R) l).

#[export] Instance ExactLib : ArrayLib R := {
  lit0 := 0%R;
  lit1 := 1%R;
  add := Rplus;
  sub := Rminus;
  mul := Rmult;
  maximum := Rmax;
  rsqrt := fun v => (1 / sqrt v)%R;
  mean_red := Rmean;
  var_red := Rvar
}.

(** ** The single-precision array library

    IEEE 754 binary32 with round to nearest even, as [jax] computes on
    [float32] arrays. [jnp.mean] sums and divides by the count, [jnp.var] is
    the mean of the squared deviations, [jnp.maximum] propagates NaN. The
    order in which [jax] adds the elements and the last digit of its
    [rsqrt] are not fixed by the source; this instance is used on inputs
    where neither matters. *)

Module Float32.
Import SpecFloat.

Definition prec : Z := 24.
Definition emax : Z := 128.

Definition of_nat (n : nat) : spec_float :=
  binary_normalize prec emax (Z.of_nat n) 0 false.

Definition is_nan (x : spec_float) : bool :=
  match x with
  | S754_nan => true
  | _ => false
  end.

Definition is_finite (x : spec_float) : bool :=
  match x with
  | S754_zero _ | S754_finite _ _ _ => true
  | _ => false
  end.

Definition fmaximum (a b : spec_float) : spec_float :=
  if is_nan a || is_nan b then S754_nan
  else if SFltb a b then b else a.

Definition fsum (l : list spec_float) : spec_float :=
  fold_left (SFadd prec emax) l (S754_zero false).

Definition fmean (l : list spec_float) : spec_float :=
  SFdiv prec emax (fsum l) (of_nat (length l)).

Definition fvar (l : list spec_float) : spec_float :=
  let m := fmean l in
  fmean (map (fun v => let d := SFsub prec emax v m in
                       SFmul prec emax d d) l).

Definition frsqrt (v : spec_float) : spec_float :=
  SFdiv prec emax (SFone prec emax) (SFsqrt prec emax v).

#[export] Instance Lib : ArrayLib spec_float := {
  lit0 := S754_zero false;
  lit1 := SFone prec emax;
  add := SFadd prec emax;
  sub := SFsub prec emax;
  mul := SFmul prec emax;
  maximum := fmaximum;
  rsqrt := frsqrt;
  mean_red := fmean;
  var_red := fvar
}.

(** The values nearest to [3e38] and to the default [eps = 1e-5]. *)
Definition three_e38 : spec_float := S754_finite false 14791142 104.
Definition eps_default : spec_float := S754_finite false 10995116 (-40).
End Float32.

(** ** The normalisation of one block of elements

    The elements [c] of one statistics scope, each reduced by the mean of [c]
    and scaled by the inverse square root of the floored variance of [c]
    plus [eps]. *)

Section Block.
Context {T : Type} {L : ArrayLib T}.

Definition block_inv (eps : T) (c : list T) : T :=
  rsqrt (add (maximum lit0 (var_red c)) eps).

Definition normalise_block (eps : T) (c : list T) : list T :=
  map (fun v => mul (sub v (mean_red c)) (block_inv eps c)) c.

(** The [i]-th run of [k] consecutive elements of [d]: with
    [k = (channels / groups) * numel rest] the elements of group [i] of an
    array of shape [(channels, rest...)]. *)
Definition block (k i : nat) (d : list T) : list T :=
  firstn k (skipn (i * k) d).
End Block.

(** The elements of a parameter that may be absent. *)
Definition param_data {T : Type} (p : option (Array T)) : list T :=
  match p with
  | Some a => data a
  | None => []
  end.

(** A parameter that is present and has the shape of [x]. *)
Definition fits {T : Type} (p : option (Array T)) (x : Array T) : Prop :=
  match p with
  | Some a => well_formed a /\ shape a = shape x
  | None => False
  end.

(** Number of elements of one group of an array of shape [c :: rest]. *)
Definition group_size (groups : Z) (c : nat) (rest : list nat) : nat :=
  c / Z.to_nat groups * numel rest.

(** The flags a [LayerNorm] ends up with, given the deprecated alias. *)
Definition effective (flag : bool) (elementwise_affine : option bool) : bool :=
  match elementwise_affine with
  | Some b => b
  | None => flag
  end.

(** ** Sample inputs

    The vector [[1,2,3,4]], the [4 x 2] array [[1..8]] and a constant
    vector. *)

Definition vec4 : Array R := mkArray [4] [1; 2; 3; 4]%R.

Definition mat42 : Array R :=
  mkArray [4; 2] [1; 2; 3; 4; 5; 6; 7; 8]%R.

Definition sevens : Array R := mkArray [3] [7; 7; 7]%R.

(** * Properties *)

Lemma bind_ok {A B : Type} (a : A) (k : A -> result B) :
  bind (Ok a) k = k a.
Proof. reflexivity. Qed.

(** ** Lists, blocks and broadcasting *)

Section JnpFacts.
Context {T : Type} {L : ArrayLib T}.

Lemma chunks_length (k n : nat) (l : list T) : length (chunks k n l) = n.
Proof.
  revert l; induction n as [|n IH]; intros l; simpl; [reflexivity|].
  now rewrite IH.
Qed.

Lemma chunks_blocks (k n : nat) (l : list T) :
  length l = n * k -> Forall (fun c => length c = k) (chunks k n l).
Proof.
  revert l; induction n as [|n IH]; intros l Hl; simpl; constructor.
  - rewrite length_firstn. simpl in Hl. lia.
  - apply IH. rewrite length_skipn. simpl in Hl. lia.
Qed.

Lemma concat_chunks (k n : nat) (l : list T) :
  length l = n * k -> concat (chunks k n l) = l.
Proof.
  revert l; induction n as [|n IH]; intros l Hl; simpl.
  - symmetry. apply length_zero_iff_nil. exact Hl.
  - rewrite IH.
    + apply firstn_skipn.
    + rewrite length_skipn. simpl in Hl. lia.
Qed.

Lemma chunks_singletons (l : list T) :
  chunks 1 (length l) l = map (fun v => [v]) l.
Proof.
  induction l as [|v l IH]; simpl; [reflexivity|].
  now rewrite IH.
Qed.

Lemma chunks_one (k : nat) (l : list T) :
  length l = k -> chunks k 1 l = [l].
Proof.
  intros Hl. simpl. rewrite <- Hl. now rewrite firstn_all.
Qed.

Lemma concat_repeat (v : T) (k n : nat) :
  concat (repeat (repeat v k) n) = repeat v (n * k).
Proof.
  induction n as [|n IH]; simpl; [reflexivity|].
  now rewrite IH, repeat_app.
Qed.

Lemma numel_keepdims (s : list nat) : numel (keepdims s) = 1.
Proof.
  unfold keepdims, numel.
  induction s as [|a s IH]; simpl; [reflexivity|].
  rewrite IH. reflexivity.
Qed.

Lemma length_keepdims (s : list nat) : length (keepdims s) = length s.
Proof. apply length_map. Qed.

Lemma pad_shape_same (s : list nat) : pad_shape (length s) s = s.
Proof. unfold pad_shape. now rewrite Nat.sub_diag. Qed.

Lemma pad_shape_full (n : nat) (s : list nat) :
  length s = n -> pad_shape n s = s.
Proof. intros <-. apply pad_shape_same. Qed.

Lemma broadcast_dims_same (s : list nat) : broadcast_dims s s = Some s.
Proof.
  induction s as [|a s IH]; simpl; [reflexivity|].
  now rewrite IH, Nat.eqb_refl.
Qed.

Lemma broadcast_dims_keepdims (s : list nat) :
  broadcast_dims s (keepdims s) = Some s.
Proof.
  induction s as [|a s IH]; simpl; [reflexivity|].
  fold (keepdims s). rewrite IH.
  destruct (a =? 1) eqn:E; [|reflexivity].
  apply Nat.eqb_eq in E. now subst.
Qed.

Lemma broadcast_shapes_same (s : list nat) : broadcast_shapes s s = Some s.
Proof.
  unfold broadcast_shapes. rewrite Nat.max_id, pad_shape_same.
  apply broadcast_dims_same.
Qed.

Lemma broadcast_shapes_keepdims (s : list nat) :
  broadcast_shapes s (keepdims s) = Some s.
Proof.
  unfold broadcast_shapes.
  rewrite length_keepdims, Nat.max_id, pad_shape_same.
  rewrite (pad_shape_full (keepdims s)) by apply length_keepdims.
  apply broadcast_dims_keepdims.
Qed.

(** Broadcasting an array to its own shape leaves the elements alone. *)
Lemma expand_same (s : list nat) (d : list T) :
  length d = numel s -> expand s s d = d.
Proof.
  revert d; induction s as [|a s IH]; intros d Hd; simpl; [reflexivity|].
  rewrite Nat.eqb_refl. simpl in Hd.
  assert (Hb := chunks_blocks (numel s) a d Hd).
  rewrite <- (concat_chunks (numel s) a d Hd) at 2.
  f_equal. induction Hb as [|c cs Hc _ IHcs]; simpl; [reflexivity|].
  now rewrite IH, IHcs.
Qed.

(** Broadcasting a one-element array fills the target shape with it. *)
Lemma expand_keepdims (t : list nat) (v : T) :
  expand (keepdims t) t [v] = repeat v (numel t).
Proof.
  induction t as [|b t IH]; [reflexivity|].
  change (expand (keepdims (b :: t)) (b :: t) [v])
    with (if 1 =? b
          then concat (map (expand (keepdims t) t)
                           (chunks (numel (keepdims t)) 1 [v]))
          else concat (repeat (expand (keepdims t) t [v]) b)).
  rewrite IH, numel_keepdims.
  destruct (1 =? b) eqn:E.
  - apply Nat.eqb_eq in E. subst b.
    simpl. rewrite IH, app_nil_r. now rewrite Nat.add_0_r.
  - apply concat_repeat.
Qed.

Lemma map2_app (f : T -> T -> T) (a1 a2 b1 b2 : list T) :
  length a1 = length b1 ->
  map2 f (a1 ++ a2) (b1 ++ b2) = map2 f a1 b1 ++ map2 f a2 b2.
Proof.
  revert b1; induction a1 as [|x a1 IH]; intros [|y b1] H;
    simpl in *; try discriminate; [reflexivity|].
  f_equal. apply IH. lia.
Qed.

Lemma map2_repeat (f : T -> T -> T) (l : list T) (w : T) :
  map2 f l (repeat w (length l)) = map (fun v => f v w) l.
Proof.
  induction l as [|x l IH]; simpl; [reflexivity|]. now rewrite IH.
Qed.

Lemma length_map2 (f : T -> T -> T) (l1 l2 : list T) :
  length l1 = length l2 -> length (map2 f l1 l2) = length l1.
Proof.
  revert l2; induction l1 as [|x l1 IH]; intros [|y l2] H;
    simpl in *; try discriminate; [reflexivity|].
  f_equal. apply IH. lia.
Qed.

(** A blockwise scalar applied to the concatenation of the blocks. *)
Lemma map2_blocks (f : T -> T -> T) (k : nat) (h : list T -> T)
      (g : list T -> list T) (cs : list (list T)) :
  Forall (fun c => length (g c) = k) cs ->
  map2 f (concat (map g cs))
         (concat (map (fun c => repeat (h c) k) cs))
  = concat (map (fun c => map (fun v => f v (h c)) (g c)) cs).
Proof.
  induction 1 as [|c cs Hc _ IH]; simpl; [reflexivity|].
  rewrite map2_app by now rewrite repeat_length.
  rewrite IH. f_equal. rewrite <- Hc. apply map2_repeat.
Qed.
End JnpFacts.

(** ** Elementwise operators against per-block scalars *)

Section BinopFacts.
Context {T : Type} {L : ArrayLib T}.

Lemma expand_to_same (s : list nat) (d : list T) :
  length d = numel s -> expand_to (mkArray s d) s = d.
Proof.
  intros Hd. unfold expand_to. simpl.
  rewrite pad_shape_same. now apply expand_same.
Qed.

Lemma expand_to_keepdims (s : list nat) (w : T) :
  expand_to (mkArray (keepdims s) [w]) s = repeat w (numel s).
Proof.
  unfold expand_to. simpl.
  rewrite pad_shape_full by apply length_keepdims.
  apply expand_keepdims.
Qed.

(** Two arrays of the same shape. *)
Lemma binop_aligned (f : T -> T -> T) (s : list nat) (d1 d2 : list T) :
  length d1 = numel s -> length d2 = numel s ->
  binop f (mkArray s d1) (mkArray s d2) = Ok (mkArray s (map2 f d1 d2)).
Proof.
  intros H1 H2. unfold binop. cbn [shape].
  rewrite broadcast_shapes_same.
  now rewrite !expand_to_same.
Qed.

(** An array against a one-element array of the same rank. *)
Lemma binop_scalar (f : T -> T -> T) (s : list nat) (d : list T) (w : T) :
  length d = numel s ->
  binop f (mkArray s d) (mkArray (keepdims s) [w])
  = Ok (mkArray s (map (fun v => f v w) d)).
Proof.
  intros Hd. unfold binop. simpl.
  rewrite broadcast_shapes_keepdims.
  rewrite expand_to_same by exact Hd.
  rewrite expand_to_keepdims, <- Hd.
  now rewrite map2_repeat.
Qed.

Lemma expand_groups (g : nat) (s : list nat) (ws : list T) :
  length ws = g ->
  expand (g :: keepdims s) (g :: s) ws
  = concat (map (fun w => repeat w (numel s)) ws).
Proof.
  intros Hg. simpl. rewrite Nat.eqb_refl.
  fold (keepdims s). rewrite numel_keepdims.
  rewrite <- Hg, chunks_singletons, map_map.
  f_equal. apply map_ext. intros w. apply expand_keepdims.
Qed.

Lemma broadcast_shapes_groups (g : nat) (s : list nat) :
  broadcast_shapes (g :: s) (g :: keepdims s) = Some (g :: s).
Proof.
  unfold broadcast_shapes. simpl length.
  rewrite length_keepdims, Nat.max_id.
  rewrite !pad_shape_full by (simpl; now rewrite ?length_keepdims).
  simpl. fold (keepdims s).
  now rewrite broadcast_dims_keepdims, Nat.eqb_refl.
Qed.

Lemma length_concat_blocks (k : nat) (gf : list T -> list T)
      (cs : list (list T)) :
  Forall (fun c => length (gf c) = k) cs ->
  length (concat (map gf cs)) = length cs * k.
Proof.
  induction 1 as [|c cs Hc _ IH]; simpl; [reflexivity|].
  rewrite length_app, IH, Hc. reflexivity.
Qed.

(** An array of [g] blocks against one scalar per block. *)
Lemma binop_blocks (f : T -> T -> T) (g : nat) (s : list nat)
      (gf : list T -> list T) (h : list T -> T) (cs : list (list T)) :
  length cs = g ->
  Forall (fun c => length (gf c) = numel s) cs ->
  binop f (mkArray (g :: s) (concat (map gf cs)))
          (mkArray (g :: keepdims s) (map h cs))
  = Ok (mkArray (g :: s)
                (concat (map (fun c => map (fun v => f v (h c)) (gf c)) cs))).
Proof.
  intros Hg Hb. unfold binop. simpl shape.
  rewrite broadcast_shapes_groups.
  rewrite expand_to_same
    by (rewrite length_concat_blocks with (k := numel s) by exact Hb;
        rewrite Hg; reflexivity).
  unfold expand_to at 1. simpl shape. simpl data.
  rewrite pad_shape_full by (simpl; now rewrite length_keepdims).
  rewrite expand_groups by (now rewrite length_map).
  rewrite map_map. now rewrite map2_blocks.
Qed.

Lemma negative_of_nat (s : list nat) :
  existsb (fun d => d <? 0)%Z (map Z.of_nat s) = false.
Proof.
  induction s as [|a s IH]; simpl; [reflexivity|].
  rewrite IH, orb_false_r. apply Z.ltb_ge. lia.
Qed.

Lemma to_nat_of_nat (s : list nat) : map Z.to_nat (map Z.of_nat s) = s.
Proof.
  rewrite map_map. rewrite <- (map_id s) at 2.
  apply map_ext. intros a. apply Nat2Z.id.
Qed.

Lemma reshape_of_nat (x : Array T) (s : list nat) :
  numel s = numel (shape x) ->
  reshape x (map Z.of_nat s) = Ok (mkArray s (data x)).
Proof.
  intros Hs. unfold reshape.
  rewrite negative_of_nat, to_nat_of_nat.
  apply Nat.eqb_eq in Hs. now rewrite Hs.
Qed.

(** Mapping a [keepdims] reduction over the leading axis yields one scalar
    per slice. *)
Lemma vmap_reduction (red : list T -> T) (n : nat) (s : list nat)
      (d : list T) :
  vmap (fun a => mkArray (keepdims (shape a)) [red (data a)])
       (mkArray (n :: s) d)
  = Ok (mkArray (n :: keepdims s) (map red (chunks (numel s) n d))).
Proof.
  unfold vmap, unstack. simpl. do 2 f_equal.
  rewrite !map_map. simpl.
  induction (chunks (numel s) n d) as [|c cs IH]; simpl; [reflexivity|].
  now rewrite IH.
Qed.
End BinopFacts.

(** ** The call path of both layers, in closed form *)

Section CallFacts.
Context {T : Type} {L : ArrayLib T}.

Lemma nth_chunks (k n i : nat) (d : list T) :
  i < n -> nth i (chunks k n d) [] = block k i d.
Proof.
  revert i d; induction n as [|n IH]; intros i d Hi; [lia|].
  destruct i as [|i]; simpl; [reflexivity|].
  rewrite IH by lia. unfold block.
  rewrite skipn_skipn. do 2 f_equal. lia.
Qed.

Lemma block_concat (k i : nat) (bs : list (list T)) :
  Forall (fun b => length b = k) bs ->
  i < length bs ->
  block k i (concat bs) = nth i bs [].
Proof.
  intros Hb. revert i.
  induction Hb as [|b bs Hk _ IH]; intros i Hi; simpl in Hi; [lia|].
  destruct i as [|i]; unfold block; simpl.
  - rewrite firstn_app, Hk, Nat.sub_diag. simpl.
    rewrite app_nil_r, <- Hk. apply firstn_all.
  - rewrite skipn_app, Hk.
    rewrite (skipn_all2 b) by lia.
    replace (k + i * k - k) with (i * k) by lia.
    simpl. apply IH. lia.
Qed.

(** The [i]-th block of a blockwise image is the image of the [i]-th
    block. *)
Lemma block_of_blocks (k n i : nat) (f : list T -> list T) (d : list T) :
  (forall c, length (f c) = length c) ->
  length d = n * k ->
  i < n ->
  block k i (concat (map f (chunks k n d))) = f (block k i d).
Proof.
  intros Hf Hd Hi.
  rewrite block_concat.
  - rewrite (nth_indep _ [] (f [])) by (now rewrite length_map, chunks_length).
    rewrite map_nth. now rewrite nth_chunks.
  - apply Forall_map. eapply Forall_impl; [|apply chunks_blocks; exact Hd].
    intros c Hc. cbn beta in *. now rewrite Hf.
  - now rewrite length_map, chunks_length.
Qed.

Lemma length_normalise_block (eps : T) (c : list T) :
  length (normalise_block eps c) = length c.
Proof. apply length_map. Qed.

(** [LayerNorm]: one block, the whole array. *)
Lemma layer_normalised (self : LayerNorm.t) (x : Array T) :
  well_formed x ->
  LayerNorm.normalised self x
  = Ok (mkArray (shape x) (normalise_block (LayerNorm.eps self) (data x))).
Proof.
  intros Hx. destruct x as [s d]. unfold well_formed in Hx. simpl in Hx.
  unfold LayerNorm.normalised, LayerNorm.call_mean, LayerNorm.call_inv.
  unfold jnp_mean, jnp_var, pointwise. simpl.
  rewrite binop_scalar by exact Hx. simpl.
  rewrite binop_scalar by (now rewrite length_map).
  unfold normalise_block, block_inv. now rewrite map_map.
Qed.

(** [GroupNorm]: one block per group, in the order of the leading axis. *)
Lemma group_normalised (self : GroupNorm.t) (x : Array T)
      (g m : nat) (rest : list nat) :
  well_formed x ->
  shape x = g * m :: rest ->
  GroupNorm.groups self = Z.of_nat g ->
  0 < g ->
  GroupNorm.normalised self x
  = Ok (mkArray (shape x)
          (concat (map (normalise_block (GroupNorm.eps self))
                       (chunks (m * numel rest) g (data x))))).
Proof.
  intros Hx Hs Hg Hpos. destruct x as [s d].
  unfold well_formed in Hx. cbn [shape data] in Hx, Hs. subst s.
  assert (Hlen : length d = g * (m * numel rest)) by (simpl in Hx; lia).
  unfold GroupNorm.normalised. cbn [shape data tl]. rewrite bind_ok.
  rewrite Hg. unfold py_floordiv.
  replace (Z.of_nat g =? 0)%Z with false
    by (symmetry; apply Z.eqb_neq; lia).
  rewrite bind_ok.
  replace (Z.of_nat (g * m) / Z.of_nat g)%Z with (Z.of_nat m)
    by (rewrite Nat2Z.inj_mul, Z.mul_comm, Z.div_mul; lia).
  change (Z.of_nat g :: Z.of_nat m :: map Z.of_nat rest)
    with (map Z.of_nat (g :: m :: rest)).
  rewrite reshape_of_nat by (simpl; lia).
  rewrite bind_ok.
  unfold GroupNorm.call_inv, jnp_mean, jnp_var.
  rewrite (vmap_reduction mean_red g (m :: rest) d), bind_ok.
  rewrite (vmap_reduction var_red g (m :: rest) d), !bind_ok.
  change (numel (m :: rest)) with (m * numel rest).
  set (k := m * numel rest) in *.
  set (cs := chunks k g d).
  assert (Hcs : length cs = g) by apply chunks_length.
  assert (Hbl : Forall (fun c => length c = numel (m :: rest)) cs)
    by (apply chunks_blocks; exact Hlen).
  assert (Hd : d = concat (map (fun c => c) cs))
    by (rewrite map_id; symmetry; apply concat_chunks; exact Hlen).
  rewrite Hd at 1.
  rewrite (binop_blocks sub (m :: rest) (fun c => c) mean_red Hcs Hbl).
  rewrite bind_ok. unfold pointwise. cbn [shape data].
  rewrite !map_map.
  change (map (fun c => rsqrt (add (maximum lit0 (var_red c))
                                   (GroupNorm.eps self))) cs)
    with (map (block_inv (GroupNorm.eps self)) cs).
  rewrite (binop_blocks mul (m :: rest)
             (fun c => map (fun v => sub v (mean_red c)) c)
             (block_inv (GroupNorm.eps self)) Hcs).
  - rewrite bind_ok.
    change (map Z.of_nat (g * m :: rest))
      with (map Z.of_nat (shape (mkArray (g * m :: rest) d))).
    rewrite reshape_of_nat by (simpl; lia).
    cbn [shape data]. do 3 f_equal. apply map_ext. intros c.
    unfold normalise_block. now rewrite map_map.
  - eapply Forall_impl; [|exact Hbl].
    intros c Hc. cbn beta in *. now rewrite length_map.
Qed.
End CallFacts.

(** ** Construction *)

Section Construction.
Context {T : Type} {L : ArrayLib T}.

(** C7. Constructing a [LayerNorm] with [shape=None] while a weight or a
    bias is enabled raises from the constructor itself; it is the
    allocation of the parameter, [jnp.ones(None)] or [jnp.zeros(None)],
    that refuses the missing shape. In particular
    [LayerNorm(shape=None, use_weight=True)] is rejected. *)
Theorem layernorm_missing_shape_rejected
    (eps : T) (use_weight use_bias : bool) (elementwise_affine : option bool) :
  effective use_weight elementwise_affine
    || effective use_bias elementwise_affine = true ->
  (exists msg,
     snd (LayerNorm.__init__ ShapeNone eps use_weight use_bias
                             elementwise_affine)
     = Raise (TypeError msg))
  /\ succeeds (snd (LayerNorm.__init__ ShapeNone eps true use_bias None))
     = false.
Proof.
  intros H. split; [|reflexivity].
  unfold LayerNorm.__init__.
  destruct elementwise_affine as [b|]; simpl in H.
  - rewrite orb_diag in H. subst b. simpl. eauto.
  - destruct use_weight; simpl in *; [eauto|].
    subst use_bias. simpl. eauto.
Qed.

(** C8. When the deprecated [elementwise_affine] is given, it replaces
    both [use_weight] and [use_bias] whatever they were, and one
    deprecation warning is issued; the constructed module is the one
    obtained from the two modern flags, so nothing of the legacy flag
    reaches [__call__]. When it is [None], the two flags are taken as
    passed and no warning is issued. *)
Theorem layernorm_elementwise_affine_alias
    (shape : shape_arg) (eps : T) (use_weight use_bias b : bool) :
  fst (LayerNorm.__init__ shape eps use_weight use_bias (Some b))
    = [LayerNorm.deprecation]
  /\ snd (LayerNorm.__init__ shape eps use_weight use_bias (Some b))
     = snd (LayerNorm.__init__ shape eps b b None)
  /\ fst (LayerNorm.__init__ shape eps use_weight use_bias None) = []
  /\ (forall (ea : option bool) (m : LayerNorm.t),
        snd (LayerNorm.__init__ shape eps use_weight use_bias ea) = Ok m ->
        LayerNorm.use_weight m = effective use_weight ea
        /\ LayerNorm.use_bias m = effective use_bias ea)
  /\ (forall (ea : option bool) (dims : list nat),
        shape = ShapeSeq (map Z.of_nat dims) ->
        succeeds (snd (LayerNorm.__init__ shape eps use_weight use_bias ea))
        = true).
Proof.
  repeat split.
  - unfold LayerNorm.__init__ in H.
    destruct ea as [e|]; simpl in *.
    + destruct e; simpl in H;
        destruct (jnp_ones shape), (jnp_zeros shape);
        simpl in H; inversion H; reflexivity.
    + destruct use_weight, use_bias; simpl in H;
        destruct (jnp_ones shape), (jnp_zeros shape);
        simpl in H; inversion H; reflexivity.
  - unfold LayerNorm.__init__ in H.
    destruct ea as [e|]; simpl in *.
    + destruct e; simpl in H;
        destruct (jnp_ones shape), (jnp_zeros shape);
        simpl in H; inversion H; reflexivity.
    + destruct use_weight, use_bias; simpl in H;
        destruct (jnp_ones shape), (jnp_zeros shape);
        simpl in H; inversion H; reflexivity.
  - intros ea dims ->.
    unfold LayerNorm.__init__, jnp_ones, jnp_zeros, full.
    simpl. rewrite negative_of_nat.
    destruct ea as [[|]|]; simpl; try reflexivity;
      destruct use_weight, use_bias; reflexivity.
Qed.

(** C4, as amended. The construction of a [GroupNorm] fails exactly when
    the channels are known and either [groups] is zero, or the channels are
    not a multiple of the groups, or they are negative while the affine
    parameters are requested, or when the channels are unknown while the
    affine parameters are requested; in every other case it succeeds. The
    failure is a [ValueError] exactly in the two cases the constructor
    guards itself: channels known and not a multiple of a non-zero
    [groups], channels unknown with affine parameters. In particular
    [GroupNorm(groups=3, channels=10)] and
    [GroupNorm(groups=2, channels=None, channelwise_affine=True)] are
    rejected. *)
Theorem groupnorm_construction_outcomes
    (groups : Z) (channels : option Z) (eps : T) (channelwise_affine : bool) :
  (succeeds (GroupNorm.__init__ groups channels eps channelwise_affine)
     = false
   <-> ((exists c, channels = Some c
                   /\ (groups = 0%Z
                       \/ (c mod groups)%Z <> 0%Z
                       \/ (channelwise_affine = true /\ (c < 0)%Z)))
        \/ (channels = None /\ channelwise_affine = true)))
  /\ ((exists msg,
         GroupNorm.__init__ groups channels eps channelwise_affine
         = Raise (ValueError msg))
      <-> ((exists c, channels = Some c
                      /\ groups <> 0%Z /\ (c mod groups)%Z <> 0%Z)
           \/ (channels = None /\ channelwise_affine = true)))
  /\ GroupNorm.__init__ 3 (Some 10%Z) eps channelwise_affine
      = Raise (ValueError GroupNorm.not_divisible)
  /\ GroupNorm.__init__ 2 None eps true
      = Raise (ValueError GroupNorm.missing_channels).
Proof.
  split; [|split; [|split; reflexivity]].
  - unfold GroupNorm.__init__, py_mod.
    destruct channels as [c|]; cbn [bind andb].
    + destruct (groups =? 0)%Z eqn:Eg.
      { apply Z.eqb_eq in Eg. cbn [bind succeeds].
        split; [|reflexivity]. intros _. left. exists c. auto. }
      apply Z.eqb_neq in Eg. cbn [bind].
      destruct (c mod groups =? 0)%Z eqn:Em; cbn [negb].
      2:{ apply Z.eqb_neq in Em. cbn [succeeds].
          split; [|reflexivity]. intros _. left. exists c. auto. }
      apply Z.eqb_eq in Em.
      unfold jnp_ones, jnp_zeros, full, canonicalize_shape.
      cbn [GroupNorm.channels_shape].
      destruct channelwise_affine.
      * destruct (c <? 0)%Z eqn:Ec; cbn [bind succeeds].
        -- apply Z.ltb_lt in Ec. split; [|reflexivity].
           intros _. left. exists c. auto.
        -- apply Z.ltb_ge in Ec. split; [discriminate|].
           intros [(c' & E & [H | [H | [_ H]]]) | (E & _)];
             try discriminate; inversion E; subst c';
             first [contradiction | lia].
      * cbn [bind succeeds]. split; [discriminate|].
        intros [(c' & E & [H | [H | [H _]]]) | (E & _)];
          try discriminate; inversion E; subst c'; contradiction.
    + destruct channelwise_affine; cbn [bind succeeds].
      * split; [|reflexivity]. intros _. right. auto.
      * split; [discriminate|].
        intros [(c' & E & _) | (_ & E)]; discriminate.
  - unfold GroupNorm.__init__, py_mod.
    destruct channels as [c|]; cbn [bind andb].
    + destruct (groups =? 0)%Z eqn:Eg.
      { apply Z.eqb_eq in Eg. cbn [bind]. split.
        - intros [msg H]. discriminate.
        - intros [(c' & _ & H & _) | (E & _)];
            [contradiction | discriminate]. }
      apply Z.eqb_neq in Eg. cbn [bind].
      destruct (c mod groups =? 0)%Z eqn:Em; cbn [negb].
      2:{ apply Z.eqb_neq in Em. split; [|eauto].
          intros _. left. exists c. auto. }
      apply Z.eqb_eq in Em.
      unfold jnp_ones, jnp_zeros, full, canonicalize_shape.
      cbn [GroupNorm.channels_shape].
      split.
      * intros [msg H].
        destruct channelwise_affine; [|discriminate].
        destruct (c <? 0)%Z; discriminate.
      * intros [(c' & E & _ & H) | (E & _)]; [|discriminate].
        inversion E; subst c'. contradiction.
    + destruct channelwise_affine; cbn [bind].
      * split; [|eauto]. intros _. right. auto.
      * split; [intros [msg H]; discriminate|].
        intros [(c' & E & _) | (_ & E)]; discriminate.
Qed.
End Construction.

(** ** The call path: structure *)

Section Calls.
Context {T : Type} {L : ArrayLib T}.

(** C9. The [key] argument of both [__call__] methods is never read: any
    two keys, [None] included, give the same outcome on the same module
    and input. *)
Theorem key_is_ignored
    (ln : LayerNorm.t) (gn : GroupNorm.t) (x : Array T)
    (key1 key2 : option PRNGKey) :
  LayerNorm.__call__ ln x key1 = LayerNorm.__call__ ln x key2
  /\ GroupNorm.__call__ gn x key1 = GroupNorm.__call__ gn x key2.
Proof. split; reflexivity. Qed.

(** C6. With [use_weight=False] and [use_bias=False] a [LayerNorm], and
    with [channelwise_affine=False] a [GroupNorm], returns the value
    [(x - mean) * inv] itself: no product or sum with a stored parameter
    takes place, whatever the parameter fields hold, and the constructors
    store no parameter at all in that case. *)
Theorem disabled_affine_is_identity
    (shape : shape_arg) (eps : T) (w b : option (Array T))
    (groups : Z) (channels : option Z)
    (x : Array T) (key : option PRNGKey) :
  LayerNorm.__call__ (LayerNorm.mk shape eps false false w b) x key
    = LayerNorm.normalised (LayerNorm.mk shape eps false false w b) x
  /\ GroupNorm.__call__ (GroupNorm.mk groups channels eps false w b) x key
     = GroupNorm.normalised (GroupNorm.mk groups channels eps false w b) x
  /\ snd (LayerNorm.__init__ shape eps false false None)
     = Ok (LayerNorm.mk shape eps false false None None)
  /\ GroupNorm.__init__ groups None eps false
     = Ok (GroupNorm.mk groups None eps false None None).
Proof.
  repeat split.
  - unfold LayerNorm.__call__. simpl.
    now destruct (LayerNorm.normalised _ x).
  - unfold GroupNorm.__call__. simpl.
    now destruct (GroupNorm.normalised _ x).
Qed.
End Calls.

(** ** [GroupNorm]: groups, channels and the relation to [LayerNorm] *)

Section Groups.
Context {T : Type} {L : ArrayLib T}.

Lemma divides_of_mod (G : Z) (c : nat) :
  (0 < G)%Z -> (Z.of_nat c mod G = 0)%Z ->
  G = Z.of_nat (Z.to_nat G)
  /\ 0 < Z.to_nat G
  /\ c = Z.to_nat G * (c / Z.to_nat G).
Proof.
  intros HG Hm.
  assert (E : G = Z.of_nat (Z.to_nat G)) by (rewrite Z2Nat.id; lia).
  repeat split; [exact E | lia |].
  rewrite E in Hm. rewrite <- Nat2Z.inj_mod in Hm.
  apply Nat.Div0.div_exact. lia.
Qed.

Lemma group_normalised_Z (self : GroupNorm.t) (x : Array T)
      (c : nat) (rest : list nat) :
  well_formed x ->
  shape x = c :: rest ->
  (0 < GroupNorm.groups self)%Z ->
  (Z.of_nat c mod GroupNorm.groups self = 0)%Z ->
  GroupNorm.normalised self x
  = Ok (mkArray (shape x)
          (concat (map (normalise_block (GroupNorm.eps self))
                       (chunks (group_size (GroupNorm.groups self) c rest)
                               (Z.to_nat (GroupNorm.groups self))
                               (data x))))).
Proof.
  intros Hx Hs HG Hm.
  destruct (@divides_of_mod _ c HG Hm) as (EG & Hpos & Hc).
  apply group_normalised; try assumption.
  now rewrite Hs, <- Hc.
Qed.

Lemma group_data_length (G : Z) (x : Array T) (c : nat) (rest : list nat) :
  well_formed x ->
  shape x = c :: rest ->
  (0 < G)%Z ->
  (Z.of_nat c mod G = 0)%Z ->
  length (data x) = Z.to_nat G * group_size G c rest.
Proof.
  intros Hx Hs HG Hm.
  destruct (@divides_of_mod G c HG Hm) as (_ & _ & Hc).
  unfold well_formed in Hx. rewrite Hx, Hs. unfold group_size. simpl.
  rewrite Nat.mul_assoc, <- Hc. reflexivity.
Qed.

(** C10. At call time the channel count is read off the input: the
    configured [channels] has no influence on the outcome, and on an input
    whose leading axis is a multiple of [groups] a [GroupNorm] without
    affine parameters succeeds whatever [channels] was configured, with an
    output of the shape of [x] made of [groups] blocks of
    [x.shape[0] / groups] channels each. *)
Theorem groupnorm_channels_from_input
    (groups : Z) (configured other : option Z) (eps : T)
    (w b : option (Array T)) (x : Array T) (c : nat) (rest : list nat)
    (key : option PRNGKey) :
  well_formed x ->
  shape x = c :: rest ->
  (0 < groups)%Z ->
  (Z.of_nat c mod groups = 0)%Z ->
  GroupNorm.__call__ (GroupNorm.mk groups configured eps false w b) x key
  = Ok (mkArray (shape x)
          (concat (map (normalise_block eps)
                       (chunks (group_size groups c rest) (Z.to_nat groups)
                               (data x)))))
  /\ (forall affine : bool,
        GroupNorm.__call__
          (GroupNorm.mk groups configured eps affine w b) x key
        = GroupNorm.__call__
            (GroupNorm.mk groups other eps affine w b) x key).
Proof.
  intros Hx Hs HG Hm. split; [|reflexivity].
  unfold GroupNorm.__call__.
  rewrite (@group_normalised_Z
             (GroupNorm.mk groups configured eps false w b)
             x c rest Hx Hs HG Hm).
  reflexivity.
Qed.

(** C2. On an input of shape [(channels, d1, ..., dk)] whose leading axis
    is a multiple of [groups], a [GroupNorm] without affine parameters
    returns an array of the shape of [x] whose [i]-th block of
    [channels / groups] channels is the [i]-th block of [x] reduced by that
    block's own mean and scaled by the inverse square root of that block's
    own floored variance plus [eps]: one pair of statistics per group, taken
    over the channels of the group and all trailing axes, the groups staying
    in their original order. The same array is the value to which a
    [GroupNorm] with affine parameters applies them. Consequently, with
    [groups = channels], the output of a channel is determined by the
    elements of that channel alone. *)
Theorem groupnorm_per_group_statistics
    (groups : Z) (channels : option Z) (eps : T) (w b : option (Array T))
    (x : Array T) (c : nat) (rest : list nat) (key : option PRNGKey) :
  well_formed x ->
  shape x = c :: rest ->
  (0 < groups)%Z ->
  (Z.of_nat c mod groups = 0)%Z ->
  exists out,
    GroupNorm.__call__ (GroupNorm.mk groups channels eps false w b) x key
    = Ok out
    /\ shape out = shape x
    /\ length (data out) = length (data x)
    /\ (forall i, i < Z.to_nat groups ->
          let blk := block (group_size groups c rest) i (data x) in
          block (group_size groups c rest) i (data out)
          = map (fun v =>
                   mul (sub v (mean_red blk))
                       (rsqrt (add (maximum lit0 (var_red blk)) eps)))
                blk)
    /\ (forall affine : bool,
          GroupNorm.normalised
            (GroupNorm.mk groups channels eps affine w b) x = Ok out)
    /\ (groups = Z.of_nat c ->
        forall (x' : Array T) (j : nat),
          well_formed x' ->
          shape x' = shape x ->
          j < c ->
          block (numel rest) j (data x') = block (numel rest) j (data x) ->
          exists out',
            GroupNorm.__call__
              (GroupNorm.mk groups channels eps false w b) x' key = Ok out'
            /\ block (numel rest) j (data out')
               = block (numel rest) j (data out)).
Proof.
  intros Hx Hs HG Hm.
  assert (Hlen := @group_data_length groups x c rest Hx Hs HG Hm).
  assert (Hcall : forall y : Array T,
             well_formed y -> shape y = c :: rest ->
             GroupNorm.__call__
               (GroupNorm.mk groups channels eps false w b) y key
             = Ok (mkArray (shape y)
                     (concat (map (normalise_block eps)
                                  (chunks (group_size groups c rest)
                                          (Z.to_nat groups) (data y)))))).
  { intros y Hy Hsy. unfold GroupNorm.__call__.
    rewrite (@group_normalised_Z
               (GroupNorm.mk groups channels eps false w b)
               y c rest Hy Hsy HG Hm).
    reflexivity. }
  assert (Hblk : forall (y : Array T) (i : nat),
             well_formed y -> shape y = c :: rest -> i < Z.to_nat groups ->
             block (group_size groups c rest) i
               (concat (map (normalise_block eps)
                            (chunks (group_size groups c rest)
                                    (Z.to_nat groups) (data y))))
             = normalise_block eps
                 (block (group_size groups c rest) i (data y))).
  { intros y i Hy Hsy Hi.
    apply block_of_blocks; [apply length_normalise_block | | exact Hi].
    now apply group_data_length. }
  eexists. split; [apply (Hcall x Hx Hs)|].
  cbn [shape data].
  split; [reflexivity|]. split; [|split; [|split]].
  - rewrite length_concat_blocks with (k := group_size groups c rest).
    + now rewrite chunks_length.
    + eapply Forall_impl; [|apply chunks_blocks; exact Hlen].
      intros a Ha. cbn beta in *. now rewrite length_normalise_block.
  - intros i Hi. cbv zeta. rewrite Hblk by assumption. reflexivity.
  - intros affine.
    apply (@group_normalised_Z
             (GroupNorm.mk groups channels eps affine w b)
             x c rest Hx Hs HG Hm).
  - intros HGc x' j Hx' Hs' Hj Hsame.
    rewrite Hs in Hs'.
    eexists. split; [apply (Hcall x' Hx' Hs')|].
    cbn [shape data].
    assert (Hk : group_size groups c rest = numel rest).
    { unfold group_size. rewrite HGc, Nat2Z.id.
      rewrite Nat.div_same by lia. apply Nat.mul_1_l. }
    assert (Hj' : j < Z.to_nat groups) by (rewrite HGc, Nat2Z.id; exact Hj).
    rewrite <- Hk in *.
    rewrite !Hblk by assumption.
    now rewrite Hsame.
Qed.

(** C3. On an input of shape [(C, ...)], a [GroupNorm] constructed with
    [groups=1], [channels=C] and no affine parameters returns exactly what
    a [LayerNorm] constructed with the same [eps] and no affine parameters
    returns: both normalise the whole array by one mean and one
    variance. *)
Theorem groupnorm_one_group_is_layernorm
    (x : Array T) (c : nat) (rest : list nat) (eps : T)
    (shp : shape_arg) (key key' : option PRNGKey) :
  well_formed x ->
  shape x = c :: rest ->
  exists (gn : GroupNorm.t) (ln : LayerNorm.t),
    GroupNorm.__init__ 1 (Some (Z.of_nat c)) eps false = Ok gn
    /\ snd (LayerNorm.__init__ shp eps false false None) = Ok ln
    /\ GroupNorm.__call__ gn x key = LayerNorm.__call__ ln x key'
    /\ succeeds (LayerNorm.__call__ ln x key') = true.
Proof.
  intros Hx Hs.
  exists (GroupNorm.mk 1 (Some (Z.of_nat c)) eps false None None).
  exists (LayerNorm.mk shp eps false false None None).
  split.
  { unfold GroupNorm.__init__, py_mod. simpl. now rewrite Z.mod_1_r. }
  split; [reflexivity|].
  assert (Hl : LayerNorm.__call__
                 (LayerNorm.mk shp eps false false None None) x key'
               = Ok (mkArray (shape x) (normalise_block eps (data x)))).
  { unfold LayerNorm.__call__.
    rewrite (@layer_normalised _ _ _ x Hx). reflexivity. }
  rewrite Hl. split; [|reflexivity].
  unfold GroupNorm.__call__.
  rewrite (@group_normalised_Z
             (GroupNorm.mk 1 (Some (Z.of_nat c)) eps false None None)
             x c rest Hx Hs)
    by (cbn; first [lia | apply Z.mod_1_r]).
  cbn [GroupNorm.groups GroupNorm.eps GroupNorm.channelwise_affine bind].
  do 2 f_equal.
  unfold group_size. change (Z.to_nat 1) with 1.
  rewrite Nat.div_1_r.
  rewrite chunks_one.
  - simpl. apply app_nil_r.
  - unfold well_formed in Hx. rewrite Hx, Hs. reflexivity.
Qed.
End Groups.

(** ** Exact arithmetic *)

Section Exact.
Local Open Scope R_scope.

Lemma binop_same (f : R -> R -> R) (s : list nat) (d1 d2 : list R) :
  length d1 = numel s -> length d2 = numel s ->
  binop f (mkArray s d1) (mkArray s d2) = Ok (mkArray s (map2 f d1 d2)).
Proof.
  intros H1 H2. unfold binop. cbn [shape].
  rewrite broadcast_shapes_same.
  now rewrite !expand_to_same.
Qed.

Lemma Rsum_repeat (v : R) (k : nat) : Rsum (repeat v k) = INR k * v.
Proof.
  induction k as [|k IH]; [simpl; lra|].
  rewrite S_INR. cbn [repeat Rsum fold_right].
  unfold Rsum in IH. rewrite IH. lra.
Qed.

Lemma Rmean_repeat (v : R) (k : nat) :
  (0 < k)%nat -> Rmean (repeat v k) = v.
Proof.
  intros Hk. unfold Rmean. rewrite Rsum_repeat, repeat_length.
  field. apply not_0_INR. lia.
Qed.

Lemma Rmean_zeros (k : nat) : Rmean (repeat 0 k) = 0.
Proof.
  unfold Rmean. rewrite Rsum_repeat. unfold Rdiv.
  now rewrite Rmult_0_r, Rmult_0_l.
Qed.

Lemma Rvar_repeat (v : R) (k : nat) :
  (0 < k)%nat -> Rvar (repeat v k) = 0.
Proof.
  intros Hk. unfold Rvar. rewrite Rmean_repeat by exact Hk.
  rewrite map_repeat.
  replace ((v - v) * (v - v)) with 0 by lra.
  apply Rmean_zeros.
Qed.

Lemma block_inv_repeat (eps v : R) (k : nat) :
  (0 < k)%nat -> block_inv eps (repeat v k) = 1 / sqrt eps.
Proof.
  intros Hk. unfold block_inv. cbn [rsqrt add maximum lit0 var_red ExactLib].
  rewrite Rvar_repeat by exact Hk.
  rewrite Rmax_left by lra. now rewrite Rplus_0_l.
Qed.

Lemma normalise_block_repeat (eps v : R) (k : nat) :
  normalise_block eps (repeat v k) = repeat 0 k.
Proof.
  destruct k as [|k]; [reflexivity|].
  unfold normalise_block. rewrite map_repeat. f_equal.
  cbn [mul sub mean_red ExactLib].
  rewrite Rmean_repeat by lia. lra.
Qed.

Lemma chunks_repeat (v : R) (k g : nat) :
  chunks k g (repeat v (g * k)) = repeat (repeat v k) g.
Proof.
  induction g as [|g IH]; [reflexivity|].
  cbn [chunks repeat]. change (S g * k)%nat with (k + g * k)%nat.
  rewrite repeat_app.
  rewrite firstn_app, skipn_app, repeat_length, Nat.sub_diag.
  rewrite firstn_all2, skipn_all2 by (rewrite repeat_length; lia).
  cbn [firstn skipn app]. now rewrite app_nil_r, IH.
Qed.

Lemma constant_data (v : R) (x : Array R) :
  well_formed x -> Forall (eq v) (data x) ->
  data x = repeat v (numel (shape x)).
Proof.
  intros Hx Hv. rewrite <- Hx. now apply Forall_eq_repeat.
Qed.

(** C5, as amended. In exact arithmetic, for [eps > 0] and a non-empty
    input whose elements are all equal: the variance of every statistics
    scope, floored at [0], is [0]; the local [inv] of both [__call__]
    methods is [1 / sqrt eps] at every scope, with [sqrt eps > 0]; and both
    layers return without raising a value that is [0] at every element
    before any affine parameter is applied. *)
Theorem constant_input_normalises_to_zero (eps v : R) :
  0 < eps ->
  0 < sqrt eps
  /\ (forall shp use_weight use_bias w b (x : Array R) key,
        well_formed x ->
        data x <> [] ->
        Forall (eq v) (data x) ->
        pointwise (maximum lit0) (jnp_var x)
        = mkArray (keepdims (shape x)) [0]
        /\ LayerNorm.call_inv
             (LayerNorm.mk shp eps use_weight use_bias w b) x
           = mkArray (keepdims (shape x)) [1 / sqrt eps]
        /\ LayerNorm.normalised
             (LayerNorm.mk shp eps use_weight use_bias w b) x
           = Ok (mkArray (shape x) (repeat 0 (numel (shape x))))
        /\ LayerNorm.__call__ (LayerNorm.mk shp eps false false w b) x key
           = Ok (mkArray (shape x) (repeat 0 (numel (shape x)))))
  /\ (forall groups channels affine w b (x : Array R) (c : nat) rest key,
        well_formed x ->
        data x <> [] ->
        Forall (eq v) (data x) ->
        shape x = c :: rest ->
        (0 < groups)%Z ->
        (Z.of_nat c mod groups = 0)%Z ->
        exists y,
          reshape x (groups :: (Z.of_nat c / groups)%Z :: map Z.of_nat rest)
          = Ok y
          /\ (exists var,
                vmap jnp_var y = Ok var
                /\ data (pointwise (maximum lit0) var)
                   = repeat 0 (Z.to_nat groups))
          /\ (exists inv,
                GroupNorm.call_inv
                  (GroupNorm.mk groups channels eps affine w b) y = Ok inv
                /\ data inv = repeat (1 / sqrt eps) (Z.to_nat groups))
          /\ GroupNorm.normalised
               (GroupNorm.mk groups channels eps affine w b) x
             = Ok (mkArray (shape x) (repeat 0 (numel (shape x))))
          /\ GroupNorm.__call__
               (GroupNorm.mk groups channels eps false w b) x key
             = Ok (mkArray (shape x) (repeat 0 (numel (shape x))))).
Proof.
  intros Heps. split; [now apply sqrt_lt_R0|]. split.
  - intros shp use_weight use_bias w b x key Hx Hd Hv.
    assert (Hdata := constant_data Hx Hv).
    assert (Hk : (0 < numel (shape x))%nat).
    { rewrite <- Hx. destruct (data x); [contradiction|simpl; lia]. }
    assert (Hnorm : forall uw ub,
               LayerNorm.normalised (LayerNorm.mk shp eps uw ub w b) x
               = Ok (mkArray (shape x) (repeat 0 (numel (shape x))))).
    { intros uw ub.
      rewrite (@layer_normalised _ _ _ x Hx). cbn [LayerNorm.eps].
      rewrite Hdata at 1. now rewrite normalise_block_repeat. }
    assert (Hvar : Rvar (data x) = 0)
      by (rewrite Hdata; now apply Rvar_repeat).
    split; [|split; [|split]].
    + unfold pointwise, jnp_var.
      cbn [shape data map maximum lit0 var_red ExactLib].
      rewrite Hvar, Rmax_left by lra. reflexivity.
    + unfold LayerNorm.call_inv, pointwise, jnp_var.
      cbn [shape data map maximum lit0 add rsqrt var_red ExactLib
           LayerNorm.eps].
      rewrite Hvar, Rmax_left by lra. now rewrite Rplus_0_l.
    + apply Hnorm.
    + unfold LayerNorm.__call__. rewrite Hnorm. reflexivity.
  - intros groups channels affine w b x c rest key Hx Hd Hv Hs HG Hm.
    destruct (@divides_of_mod groups c HG Hm) as (EG & Hpos & Hc).
    assert (Hlen := @group_data_length R groups x c rest Hx Hs HG Hm).
    assert (Hdata := constant_data Hx Hv).
    assert (Hn : numel (shape x)
                 = (Z.to_nat groups * group_size groups c rest)%nat)
      by (rewrite <- Hx; exact Hlen).
    set (g := Z.to_nat groups) in *.
    set (k := group_size groups c rest) in *.
    assert (Hk : (0 < k)%nat).
    { destruct k; [|lia]. rewrite Nat.mul_0_r in Hlen.
      destruct (data x); [contradiction|discriminate]. }
    assert (Hnorm : forall aff,
               GroupNorm.normalised
                 (GroupNorm.mk groups channels eps aff w b) x
               = Ok (mkArray (shape x) (repeat 0 (numel (shape x))))).
    { intros aff.
      rewrite (@group_normalised_Z _ _
                 (GroupNorm.mk groups channels eps aff w b)
                 x c rest Hx Hs HG Hm).
      cbn [GroupNorm.eps GroupNorm.groups]. fold g k.
      do 2 f_equal. rewrite Hdata, Hn.
      rewrite chunks_repeat, map_repeat, normalise_block_repeat.
      apply concat_repeat. }
    assert (Hre : reshape x
                    (groups :: (Z.of_nat c / groups)%Z :: map Z.of_nat rest)
                  = Ok (mkArray (g :: (c / g)%nat :: rest) (data x))).
    { rewrite EG at 1 2. fold g. rewrite <- Nat2Z.inj_div.
      change (Z.of_nat g :: Z.of_nat (c / g)%nat :: map Z.of_nat rest)
        with (map Z.of_nat (g :: (c / g)%nat :: rest)).
      apply reshape_of_nat. rewrite Hs. simpl.
      rewrite Nat.mul_assoc, <- Hc. reflexivity. }
    assert (Hchunks : map Rvar (chunks (numel ((c / g)%nat :: rest)) g (data x))
                      = repeat 0 g).
    { change (numel ((c / g)%nat :: rest)) with k.
      rewrite Hdata, Hn, chunks_repeat, map_repeat.
      now rewrite Rvar_repeat. }
    eexists. split; [exact Hre|].
    split; [|split; [|split]].
    + eexists. split.
      * unfold jnp_var. apply (vmap_reduction var_red g ((c / g)%nat :: rest)).
      * unfold pointwise.
        cbn [shape data maximum lit0 var_red ExactLib].
        rewrite Hchunks, map_repeat, Rmax_left by lra. reflexivity.
    + eexists. split.
      * unfold GroupNorm.call_inv, jnp_var.
        rewrite (vmap_reduction var_red g ((c / g)%nat :: rest) (data x)).
        rewrite bind_ok. reflexivity.
      * unfold pointwise.
        cbn [shape data maximum lit0 add rsqrt var_red ExactLib
             GroupNorm.eps].
        rewrite Hchunks, !map_repeat, Rmax_left by lra.
        now rewrite Rplus_0_l.
    + apply Hnorm.
    + unfold GroupNorm.__call__. rewrite Hnorm. reflexivity.
Qed.

(** The inverse square root of [5/4], between two decimals. *)
Lemma rsqrt_five_quarters :
  0.89442 < 1 / sqrt (5 / 4) < 0.89443.
Proof.
  assert (Hs : sqrt (5 / 4) * sqrt (5 / 4) = 5 / 4)
    by (apply sqrt_sqrt; lra).
  assert (Hp : 0 < sqrt (5 / 4)) by (apply sqrt_lt_R0; lra).
  set (r := sqrt (5 / 4)) in *.
  assert (Hi : 0 < / r) by now apply Rinv_0_lt_compat.
  assert (Hri : r * / r = 1) by (apply Rinv_r; lra).
  unfold Rdiv. rewrite Rmult_1_l.
  set (i := / r) in *.
  assert (Hii : i * i * (5 / 4) = 1).
  { rewrite <- Hs.
    replace (i * i * (r * r)) with ((r * i) * (r * i)) by ring.
    rewrite Hri. ring. }
  split; nra.
Qed.

(** C1. For every implementation of the scalar primitives a [LayerNorm]
    returns, without weight and bias, [y = (x - mean) * inv] with [mean] the
    mean of all the elements of [x] and [inv] the inverse square root of the
    variance of all the elements, floored at [0], plus [eps]; an enabled
    weight of the shape of [x] multiplies [y] elementwise and an enabled
    bias of the shape of [x] is then added elementwise, the disabled
    parameter being absent or not, as for the modules the constructor
    builds. In exact arithmetic the mean is the sum over the element count,
    the variance the sum of the squared deviations over the element count,
    and, where the floored variance plus [eps] is positive,
    [inv = 1 / sqrt (variance + eps)]. [LayerNorm(shape=(4,))] with [eps=0]
    and no affine parameter sends [[1,2,3,4]] to within [0.00005] of
    [[-1.3416, -0.4472, 0.4472, 1.3416]]. *)
Theorem layernorm_formula (key : option PRNGKey) :
  (forall (T : Type) (L : ArrayLib T) (shp : shape_arg) (eps : T)
          (use_weight use_bias : bool) (w b : option (Array T))
          (x : Array T),
     well_formed x ->
     (use_weight = true -> fits w x) ->
     (use_bias = true -> fits b x) ->
     let y :=
       map (fun v =>
              mul (sub v (mean_red (data x)))
                  (rsqrt (add (maximum lit0 (var_red (data x))) eps)))
           (data x) in
     let scaled := if use_weight then map2 mul (param_data w) y else y in
     LayerNorm.__call__ (LayerNorm.mk shp eps use_weight use_bias w b) x key
     = Ok (mkArray (shape x)
             (if use_bias then map2 add scaled (param_data b) else scaled)))
  /\ (forall (T : Type) (L : ArrayLib T) (eps : T)
             (use_weight use_bias : bool) (x : Array T),
        well_formed x ->
        exists ln,
          snd (LayerNorm.__init__ (ShapeSeq (map Z.of_nat (shape x))) eps
                                  use_weight use_bias None) = Ok ln
          /\ (use_weight = true -> fits (LayerNorm.weight ln) x)
          /\ (use_bias = true -> fits (LayerNorm.bias ln) x)
          /\ ln = LayerNorm.mk (ShapeSeq (map Z.of_nat (shape x))) eps
                    use_weight use_bias
                    (LayerNorm.weight ln) (LayerNorm.bias ln))
  /\ (forall (shp : shape_arg) (eps : R) (w b : option (Array R))
             (x : Array R),
        well_formed x ->
        let n := INR (length (data x)) in
        let mean := Rsum (data x) / n in
        let variance :=
          Rmax 0 (Rsum (map (fun v => (v - mean) * (v - mean)) (data x)) / n)
        in
        0 < variance + eps ->
        0 < sqrt (variance + eps)
        /\ LayerNorm.__call__ (LayerNorm.mk shp eps false false w b) x key
           = Ok (mkArray (shape x)
                   (map (fun v => (v - mean) * (1 / sqrt (variance + eps)))
                        (data x))))
  /\ (exists ln y1 y2 y3 y4,
        snd (LayerNorm.__init__ (ShapeSeq [4%Z]) 0 false false None) = Ok ln
        /\ LayerNorm.__call__ ln (mkArray [4%nat] [1; 2; 3; 4]) key
            = Ok (mkArray [4%nat] [y1; y2; y3; y4])
        /\ Rabs (y1 - -1.3416) < 0.00005
        /\ Rabs (y2 - -0.4472) < 0.00005
        /\ Rabs (y3 - 0.4472) < 0.00005
        /\ Rabs (y4 - 1.3416) < 0.00005).
Proof.
  split; [|split; [|split]].
  - intros T L shp eps use_weight use_bias w b x Hx Hw Hb y scaled.
    assert (Hy : length y = numel (shape x)).
    { unfold y. rewrite length_map. exact Hx. }
    unfold LayerNorm.__call__.
    rewrite (@layer_normalised _ _ _ x Hx), bind_ok.
    cbn [LayerNorm.use_weight LayerNorm.use_bias LayerNorm.weight
         LayerNorm.bias LayerNorm.eps].
    change (normalise_block eps (data x)) with y.
    assert (Hs : (if use_weight
                  then match w with
                       | Some w0 => binop mul w0 (mkArray (shape x) y)
                       | None =>
                           Raise (TypeError "unsupported operand type(s) for *")
                       end
                  else Ok (mkArray (shape x) y))
                 = Ok (mkArray (shape x) scaled)
                 /\ length scaled = numel (shape x)).
    { unfold scaled. destruct use_weight; [|now split].
      destruct w as [[sw dw]|]; [|destruct (Hw eq_refl)].
      destruct (Hw eq_refl) as [Hww Hsw].
      unfold well_formed in Hww. cbn [shape data param_data] in *.
      subst sw. rewrite binop_aligned by assumption.
      split; [reflexivity|]. rewrite length_map2; congruence. }
    destruct Hs as [Hs Hl]. rewrite Hs, bind_ok.
    destruct use_bias; [|reflexivity].
    destruct b as [[sb db]|]; [|destruct (Hb eq_refl)].
    destruct (Hb eq_refl) as [Hbb Hsb].
    unfold well_formed in Hbb. cbn [shape data param_data] in *.
    subst sb. rewrite binop_aligned by assumption. reflexivity.
  - intros T L eps use_weight use_bias x Hx.
    unfold LayerNorm.__init__, jnp_ones, jnp_zeros, full, canonicalize_shape.
    rewrite negative_of_nat, to_nat_of_nat.
    destruct use_weight, use_bias; cbn [bind snd]; eexists;
      (split; [reflexivity|]);
      cbn [LayerNorm.weight LayerNorm.bias fits shape data];
      unfold well_formed; cbn [shape data]; rewrite ?repeat_length;
      repeat split; discriminate.
  - intros shp eps w b x Hx n mean variance Hpos.
    split; [now apply sqrt_lt_R0|].
    unfold LayerNorm.__call__.
    rewrite (@layer_normalised _ _ _ x Hx).
    cbn [bind LayerNorm.use_weight LayerNorm.use_bias LayerNorm.eps].
    do 2 f_equal.
    unfold normalise_block, block_inv.
    cbn [mul sub add maximum rsqrt lit0 mean_red var_red ExactLib].
    unfold Rvar, Rmean. rewrite length_map. reflexivity.
  - destruct rsqrt_five_quarters as [Hlo Hhi].
    set (i := 1 / sqrt (5 / 4)) in *.
    exists (LayerNorm.mk (ShapeSeq [4%Z]) 0 false false None None).
    exists ((1 - 5 / 2) * i), ((2 - 5 / 2) * i),
           ((3 - 5 / 2) * i), ((4 - 5 / 2) * i).
    split; [reflexivity|]. split.
    + unfold LayerNorm.__call__.
      rewrite layer_normalised by reflexivity.
      cbn [bind LayerNorm.use_weight LayerNorm.use_bias LayerNorm.eps
           shape data].
      do 2 f_equal.
      assert (Hm : Rmean [1; 2; 3; 4] = 5 / 2).
      { unfold Rmean, Rsum. simpl. lra. }
      assert (Hv : Rvar [1; 2; 3; 4] = 5 / 4).
      { unfold Rvar. rewrite Hm. unfold Rmean, Rsum. simpl. lra. }
      unfold normalise_block, block_inv.
      cbn [mul sub add maximum rsqrt lit0 mean_red var_red ExactLib].
      rewrite Hm, Hv, Rmax_right by lra.
      rewrite Rplus_0_r. reflexivity.
    + repeat split; apply Rabs_def1; lra.
Qed.
End Exact.

(** ** Instances on concrete inputs *)

Section Instances.
Local Open Scope R_scope.

Lemma layernorm_formula_witness :
  well_formed vec4
  /\ (true = true -> fits (Some (mkArray [4%nat] [2; 2; 2; 2])) vec4)
  /\ LayerNorm.__call__
       (LayerNorm.mk (ShapeSeq [4%Z]) 0 true false
                     (Some (mkArray [4%nat] [2; 2; 2; 2])) None) vec4 None
     = Ok (mkArray [4%nat]
             (map2 Rmult [2; 2; 2; 2]
                (map (fun v =>
                        (v - Rmean (data vec4))
                        * (1 / sqrt (Rmax 0 (Rvar (data vec4)) + 0)))
                     (data vec4)))).
Proof.
  assert (Hw : true = true -> fits (Some (mkArray [4%nat] [2; 2; 2; 2])) vec4)
    by (intros _; split; reflexivity).
  split; [reflexivity|]. split; [exact Hw|].
  apply (proj1 (layernorm_formula None) R ExactLib (ShapeSeq [4%Z]) 0
           true false (Some (mkArray [4%nat] [2; 2; 2; 2])) None vec4
           eq_refl Hw).
  discriminate.
Defined.

Lemma groupnorm_per_group_statistics_witness :
  well_formed mat42
  /\ shape mat42 = [4%nat; 2%nat]
  /\ (0 < 2)%Z
  /\ (Z.of_nat 4 mod 2 = 0)%Z
  /\ exists out,
       GroupNorm.__call__
         (GroupNorm.mk 2 (Some 4%Z) 0 false None None) mat42 None = Ok out
       /\ shape out = shape mat42
       /\ block 4 1 (data out)
          = map (fun v =>
                   (v - Rmean [5; 6; 7; 8])
                   * (1 / sqrt (Rmax 0 (Rvar [5; 6; 7; 8]) + 0)))
                [5; 6; 7; 8].
Proof.
  assert (Hi : (1 < Z.to_nat 2)%nat) by (apply Nat.ltb_lt; reflexivity).
  do 4 (split; [reflexivity|]).
  destruct (@groupnorm_per_group_statistics R ExactLib
              2%Z (Some 4%Z) 0 None None mat42 4%nat [2%nat] None
              eq_refl eq_refl eq_refl eq_refl)
    as (out & Hout & Hshape & _ & Hb & _).
  exists out. split; [exact Hout|]. split; [exact Hshape|].
  exact (Hb 1%nat Hi).
Defined.

Lemma groupnorm_one_group_is_layernorm_witness :
  well_formed mat42
  /\ shape mat42 = [4%nat; 2%nat]
  /\ exists gn ln,
       GroupNorm.__init__ 1 (Some 4%Z) (1 / 100000) false = Ok gn
       /\ snd (LayerNorm.__init__ ShapeNone (1 / 100000) false false None)
          = Ok ln
       /\ GroupNorm.__call__ gn mat42 None = LayerNorm.__call__ ln mat42 None.
Proof.
  do 2 (split; [reflexivity|]).
  destruct (@groupnorm_one_group_is_layernorm R ExactLib
              mat42 4%nat [2%nat] (1 / 100000) ShapeNone None None
              eq_refl eq_refl)
    as (gn & ln & Hg & Hl & Hcall & _).
  exists gn, ln. repeat split; assumption.
Defined.

(** The constructions [GroupNorm(groups=2, channels=-4)] and
    [GroupNorm(groups=0, channels=4)], with the affine parameters of the
    default, fail although the channels are known and, in the first, a
    multiple of the groups. *)
Lemma groupnorm_construction_counterexample :
  succeeds (GroupNorm.__init__ 2 (Some (-4)%Z) (1 / 100000) true) = false
  /\ ~ ((exists c, Some (-4)%Z = Some c /\ (c mod 2)%Z <> 0%Z)
         \/ (Some (-4)%Z = None /\ true = true))
  /\ GroupNorm.__init__ 0 (Some 4%Z) (1 / 100000) true
      = Raise ZeroDivisionError.
Proof.
  split; [reflexivity|]. split; [|reflexivity].
  intros [(c & E & H) | (E & _)]; [|discriminate].
  inversion E; subst c. apply H. reflexivity.
Qed.

Lemma constant_input_normalises_to_zero_witness :
  0 < 1 / 100000
  /\ LayerNorm.call_inv
       (LayerNorm.mk ShapeNone (1 / 100000) false false None None) sevens
     = mkArray [1%nat] [1 / sqrt (1 / 100000)]
  /\ LayerNorm.__call__
       (LayerNorm.mk ShapeNone (1 / 100000) false false None None)
       sevens None
     = Ok (mkArray [3%nat] [0; 0; 0]).
Proof.
  assert (He : 0 < 1 / 100000) by lra.
  assert (Hd : data sevens <> []) by discriminate.
  assert (Hv : Forall (eq 7) (data sevens)) by (repeat constructor).
  split; [exact He|].
  destruct (@constant_input_normalises_to_zero (1 / 100000) 7 He)
    as (_ & Hl & _).
  destruct (Hl ShapeNone false false None None sevens None eq_refl Hd Hv)
    as (_ & Hinv & _ & Hcall).
  split; assumption.
Defined.

(** In single precision the sum of two elements equal to the value nearest
    to [3e38] overflows: with the default [eps], which is positive, both
    layers return NaN at every element of this constant input. *)
Lemma constant_input_float32_counterexample :
  SpecFloat.SFltb (SpecFloat.S754_zero false) Float32.eps_default = true
  /\ LayerNorm.__call__ (L := Float32.Lib)
       (LayerNorm.mk ShapeNone Float32.eps_default false false None None)
       (mkArray [2%nat] [Float32.three_e38; Float32.three_e38]) None
     = Ok (mkArray [2%nat] [SpecFloat.S754_nan; SpecFloat.S754_nan])
  /\ GroupNorm.__call__ (L := Float32.Lib)
       (GroupNorm.mk 1 None Float32.eps_default false None None)
       (mkArray [2%nat] [Float32.three_e38; Float32.three_e38]) None
     = Ok (mkArray [2%nat] [SpecFloat.S754_nan; SpecFloat.S754_nan])
  /\ SpecFloat.S754_nan <> SpecFloat.S754_zero false.
Proof.
  split; [vm_compute; reflexivity|].
  split; [vm_compute; reflexivity|].
  split; [vm_compute; reflexivity|].
  discriminate.
Qed.

Lemma layernorm_missing_shape_rejected_witness :
  effective true None || effective false None = true
  /\ exists msg,
       snd (LayerNorm.__init__ ShapeNone (1 / 100000) true false None)
       = Raise (TypeError msg).
Proof.
  split; [reflexivity|].
  apply (proj1 (@layernorm_missing_shape_rejected R ExactLib
                  (1 / 100000) true false None eq_refl)).
Defined.

Lemma layernorm_elementwise_affine_alias_witness :
  fst (LayerNorm.__init__ (ShapeSeq [4%Z]) (1 / 100000) true false
                          (Some false))
  = [LayerNorm.deprecation]
  /\ snd (LayerNorm.__init__ (ShapeSeq [4%Z]) (1 / 100000) true false
                             (Some false))
     = Ok (LayerNorm.mk (ShapeSeq [4%Z]) (1 / 100000) false false None None).
Proof.
  destruct (@layernorm_elementwise_affine_alias R ExactLib
              (ShapeSeq [4%Z]) (1 / 100000) true false false)
    as (Hw & Hm & _).
  split; [exact Hw|]. rewrite Hm. reflexivity.
Defined.

Lemma groupnorm_channels_from_input_witness :
  well_formed mat42
  /\ shape mat42 = [4%nat; 2%nat]
  /\ (0 < 2)%Z
  /\ (Z.of_nat 4 mod 2 = 0)%Z
  /\ succeeds (GroupNorm.__call__
                 (GroupNorm.mk 2 (Some 6%Z) 0 false None None) mat42 None)
     = true.
Proof.
  do 4 (split; [reflexivity|]).
  rewrite (proj1 (@groupnorm_channels_from_input R ExactLib
                    2%Z (Some 6%Z) None 0 None None mat42 4%nat [2%nat]
                    None eq_refl eq_refl eq_refl eq_refl)).
  reflexivity.
Defined.
End Instances.

(** * Further properties of the call and construction paths *)

(** ** [GroupNorm]: what the reshape accepts *)

Section Regroup.
Context {T : Type} {L : ArrayLib T}.

(** The regrouping only asks for the element counts to agree, so the closed
    form of [group_normalised] extends to every input it lets through. *)
Lemma group_normalised_counts (self : GroupNorm.t) (x : Array T)
      (g c : nat) (rest : list nat) :
  well_formed x ->
  shape x = c :: rest ->
  GroupNorm.groups self = Z.of_nat g ->
  0 < g ->
  g * (c / g * numel rest) = c * numel rest ->
  GroupNorm.normalised self x
  = Ok (mkArray (shape x)
          (concat (map (normalise_block (GroupNorm.eps self))
                       (chunks (c / g * numel rest) g (data x))))).
Proof.
  intros Hx Hs Hg Hpos Hn. destruct x as [s d].
  unfold well_formed in Hx. cbn [shape data] in Hx, Hs. subst s.
  assert (Hlen : length d = g * (c / g * numel rest))
    by (simpl in Hx; lia).
  unfold GroupNorm.normalised. cbn [shape data tl]. rewrite bind_ok.
  rewrite Hg. unfold py_floordiv.
  replace (Z.of_nat g =? 0)%Z with false
    by (symmetry; apply Z.eqb_neq; lia).
  rewrite bind_ok, <- Nat2Z.inj_div.
  change (Z.of_nat g :: Z.of_nat (c / g) :: map Z.of_nat rest)
    with (map Z.of_nat (g :: c / g :: rest)).
  rewrite reshape_of_nat by (simpl; lia).
  rewrite bind_ok.
  unfold GroupNorm.call_inv, jnp_mean, jnp_var.
  rewrite (vmap_reduction mean_red g (c / g :: rest) d), bind_ok.
  rewrite (vmap_reduction var_red g (c / g :: rest) d), !bind_ok.
  change (numel (c / g :: rest)) with (c / g * numel rest).
  set (k := c / g * numel rest) in *.
  set (cs := chunks k g d).
  assert (Hcs : length cs = g) by apply chunks_length.
  assert (Hbl : Forall (fun b => length b = numel (c / g :: rest)) cs)
    by (apply chunks_blocks; exact Hlen).
  assert (Hd : d = concat (map (fun b => b) cs))
    by (rewrite map_id; symmetry; apply concat_chunks; exact Hlen).
  rewrite Hd at 1.
  rewrite (binop_blocks sub (c / g :: rest) (fun b => b) mean_red Hcs Hbl).
  rewrite bind_ok. unfold pointwise. cbn [shape data].
  rewrite !map_map.
  change (map (fun b => rsqrt (add (maximum lit0 (var_red b))
                                   (GroupNorm.eps self))) cs)
    with (map (block_inv (GroupNorm.eps self)) cs).
  rewrite (binop_blocks mul (c / g :: rest)
             (fun b => map (fun v => sub v (mean_red b)) b)
             (block_inv (GroupNorm.eps self)) Hcs).
  - rewrite bind_ok.
    change (map Z.of_nat (c :: rest))
      with (map Z.of_nat (shape (mkArray (c :: rest) d))).
    rewrite reshape_of_nat by (simpl; lia).
    cbn [shape data]. do 3 f_equal. apply map_ext. intros b.
    unfold normalise_block. now rewrite map_map.
  - eapply Forall_impl; [|exact Hbl].
    intros b Hb. cbn beta in *. now rewrite length_map.
Qed.

Lemma counts_agree_iff (g c r : nat) :
  0 < g ->
  g * (c / g * r) = c * r <-> (c mod g = 0 \/ r = 0).
Proof.
  intros Hg.
  assert (Hdiv := Nat.div_mod_eq c g).
  assert (Hlt : c mod g < g) by (apply Nat.mod_upper_bound; lia).
  split.
  - intros H. destruct r as [|r]; [now right|]. left.
    assert (E : g * (c / g) = c) by nia. lia.
  - intros [Hm | ->]; [|lia].
    rewrite Hm, Nat.add_0_r in Hdiv. rewrite Nat.mul_assoc, <- Hdiv.
    reflexivity.
Qed.

(** A leading axis that is not a multiple of [groups] is caught by the
    regrouping [reshape], unless the array has no element at all: for
    [groups > 0] the call path goes through exactly when [groups] divides
    [x.shape[0]] or a trailing axis is empty, and otherwise raises the
    [TypeError] of [reshape]. *)
Theorem groupnorm_regroup_guard
    (self : GroupNorm.t) (x : Array T) (c : nat) (rest : list nat) :
  well_formed x ->
  shape x = c :: rest ->
  (0 < GroupNorm.groups self)%Z ->
  (succeeds (GroupNorm.normalised self x) = true
   <-> ((Z.of_nat c mod GroupNorm.groups self = 0)%Z \/ numel rest = 0))
  /\ (succeeds (GroupNorm.normalised self x) = false ->
      forall key,
        GroupNorm.__call__ self x key
        = Raise (TypeError "cannot reshape array"))
  /\ (forall out, GroupNorm.normalised self x = Ok out ->
        shape out = shape x /\ well_formed out).
Proof.
  intros Hx Hs HG.
  set (G := GroupNorm.groups self) in *.
  set (g := Z.to_nat G).
  assert (EG : G = Z.of_nat g) by (unfold g; rewrite Z2Nat.id; lia).
  assert (Hg : 0 < g) by (unfold g; lia).
  assert (Hmod : (Z.of_nat c mod G = 0)%Z <-> c mod g = 0).
  { rewrite EG, <- Nat2Z.inj_mod. lia. }
  destruct (Nat.eq_dec (g * (c / g * numel rest)) (c * numel rest))
    as [Hn | Hn].
  - (* the element counts agree *)
    assert (Hok := @group_normalised_counts self x g c rest Hx Hs EG Hg Hn).
    rewrite Hok. cbn [succeeds]. split; [|split].
    + split; [intros _|reflexivity].
      rewrite Hmod. now apply counts_agree_iff.
    + discriminate.
    + intros out E. inversion E; subst out. cbn [shape data].
      split; [reflexivity|]. unfold well_formed. cbn [shape data].
      rewrite length_concat_blocks with (k := c / g * numel rest).
      * rewrite chunks_length, Hs. simpl. lia.
      * unfold well_formed in Hx. rewrite Hs in Hx. simpl in Hx.
        eapply Forall_impl;
          [|apply chunks_blocks; rewrite Hx; lia].
        intros b Hb. cbn beta in *. now rewrite length_normalise_block.
  - (* they do not: [reshape] refuses *)
    assert (Hraise : GroupNorm.normalised self x
                     = Raise (TypeError "cannot reshape array")).
    { unfold GroupNorm.normalised. rewrite Hs. cbn [tl]. rewrite bind_ok.
      fold G. rewrite EG. unfold py_floordiv.
      replace (Z.of_nat g =? 0)%Z with false
        by (symmetry; apply Z.eqb_neq; lia).
      rewrite bind_ok, <- Nat2Z.inj_div.
      change (Z.of_nat g :: Z.of_nat (c / g) :: map Z.of_nat rest)
        with (map Z.of_nat (g :: c / g :: rest)).
      unfold reshape at 1. rewrite negative_of_nat, to_nat_of_nat, Hs.
      replace (numel (g :: c / g :: rest) =? numel (c :: rest)) with false
        by (symmetry; apply Nat.eqb_neq; simpl; exact Hn).
      reflexivity. }
    rewrite Hraise. cbn [succeeds]. split; [|split].
    + split; [discriminate|]. intros H. exfalso. apply Hn.
      apply counts_agree_iff; [exact Hg|]. now rewrite <- Hmod.
    + intros _ key. unfold GroupNorm.__call__. now rewrite Hraise.
    + discriminate.
Qed.
End Regroup.

(** ** Errors at call time and what the constructors leave behind *)

Section Edges.
Context {T : Type} {L : ArrayLib T}.

(** [groups = 0] is only refused where it is divided by. With [channels]
    known the constructor raises [ZeroDivisionError] from [channels % groups];
    with [channels=None] and no affine parameters it constructs, and the
    module it returns raises [ZeroDivisionError] on every input that has a
    leading axis. An input without any axis raises [IndexError] whatever the
    module. *)
Theorem groupnorm_zero_groups
    (eps : T) (affine : bool) (c : Z) (x : Array T) (key : option PRNGKey) :
  GroupNorm.__init__ 0 (Some c) eps affine = Raise ZeroDivisionError
  /\ (exists gn,
        GroupNorm.__init__ 0 None eps false = Ok gn
        /\ (shape x <> [] ->
            GroupNorm.__call__ gn x key = Raise ZeroDivisionError))
  /\ (forall self : GroupNorm.t,
        shape x = [] -> GroupNorm.__call__ self x key = Raise IndexError).
Proof.
  split; [reflexivity|]. split.
  - eexists. split; [reflexivity|]. intros Hs.
    unfold GroupNorm.__call__, GroupNorm.normalised.
    destruct (shape x) as [|n s]; [contradiction|]. reflexivity.
  - intros self Hs.
    unfold GroupNorm.__call__, GroupNorm.normalised. now rewrite Hs.
Qed.

(** A [GroupNorm] that was constructed keeps its arguments, has [groups]
    dividing [channels] whenever [channels] is known, and holds either no
    parameter at all or a weight of [channels] ones and a bias of [channels]
    zeros, both of shape [(channels,)]. *)
Theorem groupnorm_constructed_invariants
    (groups : Z) (channels : option Z) (eps : T) (affine : bool)
    (m : GroupNorm.t) :
  GroupNorm.__init__ groups channels eps affine = Ok m ->
  GroupNorm.groups m = groups
  /\ GroupNorm.channels m = channels
  /\ GroupNorm.eps m = eps
  /\ GroupNorm.channelwise_affine m = affine
  /\ (forall c, channels = Some c ->
        groups <> 0%Z /\ (c mod groups = 0)%Z)
  /\ (affine = false ->
      GroupNorm.weight m = None /\ GroupNorm.bias m = None)
  /\ (affine = true ->
      exists c,
        channels = Some c /\ (0 <= c)%Z
        /\ GroupNorm.weight m
           = Some (mkArray [Z.to_nat c] (repeat lit1 (Z.to_nat c)))
        /\ GroupNorm.bias m
           = Some (mkArray [Z.to_nat c] (repeat lit0 (Z.to_nat c)))).
Proof.
  unfold GroupNorm.__init__, py_mod. intros H.
  destruct channels as [c|].
  - destruct (groups =? 0)%Z eqn:Eg; [discriminate|].
    apply Z.eqb_neq in Eg. cbn [bind] in H.
    destruct (c mod groups =? 0)%Z eqn:Em; cbn [negb] in H; [|discriminate].
    apply Z.eqb_eq in Em. cbn [andb] in H.
    assert (Hdiv : forall c', Some c = Some c' ->
                     groups <> 0%Z /\ (c' mod groups = 0)%Z).
    { intros c' E. inversion E; subst c'. now split. }
    destruct affine.
    + unfold jnp_ones, jnp_zeros, full, canonicalize_shape in H.
      cbn [GroupNorm.channels_shape] in H.
      destruct (c <? 0)%Z eqn:Ec; [discriminate|].
      apply Z.ltb_ge in Ec. cbn [bind] in H. inversion H; subst m.
      cbn. do 4 (split; [reflexivity|]).
      split; [exact Hdiv|]. split; [discriminate|].
      intros _. exists c. rewrite Nat.mul_1_r. now repeat split.
    + cbn [bind] in H. inversion H; subst m. cbn.
      do 4 (split; [reflexivity|]).
      split; [exact Hdiv|]. split; [now split|discriminate].
  - cbn [bind andb] in H. destruct affine; [discriminate|].
    cbn [bind] in H. inversion H; subst m. cbn.
    do 4 (split; [reflexivity|]).
    split; [discriminate|]. split; [now split|discriminate].
Qed.

(** A [LayerNorm] that was constructed keeps [shape] and [eps], and each
    enabled parameter fills the configured shape: the weight with ones, the
    bias with zeros; a disabled parameter is absent. *)
Theorem layernorm_constructed_invariants
    (shp : shape_arg) (eps : T) (use_weight use_bias : bool)
    (elementwise_affine : option bool) (m : LayerNorm.t) :
  snd (LayerNorm.__init__ shp eps use_weight use_bias elementwise_affine)
    = Ok m ->
  LayerNorm.shape m = shp
  /\ LayerNorm.eps m = eps
  /\ (LayerNorm.use_weight m = false -> LayerNorm.weight m = None)
  /\ (LayerNorm.use_bias m = false -> LayerNorm.bias m = None)
  /\ (LayerNorm.use_weight m = true ->
      exists dims,
        canonicalize_shape shp = Ok dims
        /\ LayerNorm.weight m
           = Some (mkArray dims (repeat lit1 (numel dims))))
  /\ (LayerNorm.use_bias m = true ->
      exists dims,
        canonicalize_shape shp = Ok dims
        /\ LayerNorm.bias m
           = Some (mkArray dims (repeat lit0 (numel dims)))).
Proof.
  unfold LayerNorm.__init__. intros H.
  set (uw := effective use_weight elementwise_affine).
  set (ub := effective use_bias elementwise_affine).
  assert (H' : (weight <- (if uw
                           then w <- jnp_ones shp ;; Ok (Some w)
                           else Ok None) ;;
                bias <- (if ub
                         then b <- jnp_zeros shp ;; Ok (Some b)
                         else Ok None) ;;
                Ok (LayerNorm.mk shp eps uw ub weight bias)) = Ok m).
  { destruct elementwise_affine as [e|]; exact H. }
  clear H. unfold jnp_ones, jnp_zeros, full in H'.
  destruct (canonicalize_shape shp) as [dims|e] eqn:Ec;
    destruct uw, ub; cbn [bind] in H'; try discriminate;
    inversion H'; subst m; cbn;
    repeat split; try discriminate; intros _; eauto.
Qed.

(** The two layers compose: without affine parameters, the [i]-th group of
    the output of a [GroupNorm] is what a [LayerNorm] with the same [eps]
    returns on the [i]-th group of the input taken as an array of its
    own. *)
Theorem groupnorm_is_layernorm_per_group
    (groups : Z) (channels : option Z) (eps : T) (shp : shape_arg)
    (w b w' b' : option (Array T)) (x : Array T) (c : nat) (rest : list nat)
    (i : nat) (key key' : option PRNGKey) :
  well_formed x ->
  shape x = c :: rest ->
  (0 < groups)%Z ->
  (Z.of_nat c mod groups = 0)%Z ->
  i < Z.to_nat groups ->
  exists out,
    GroupNorm.__call__ (GroupNorm.mk groups channels eps false w b) x key
    = Ok out
    /\ LayerNorm.__call__ (LayerNorm.mk shp eps false false w' b')
         (mkArray (c / Z.to_nat groups :: rest)
                  (block (group_size groups c rest) i (data x))) key'
       = Ok (mkArray (c / Z.to_nat groups :: rest)
                     (block (group_size groups c rest) i (data out))).
Proof.
  intros Hx Hs HG Hm Hi.
  assert (Hlen := @group_data_length T groups x c rest Hx Hs HG Hm).
  eexists. split.
  - unfold GroupNorm.__call__.
    rewrite (@group_normalised_Z _ _
               (GroupNorm.mk groups channels eps false w b)
               x c rest Hx Hs HG Hm).
    reflexivity.
  - cbn [data GroupNorm.eps GroupNorm.groups].
    rewrite block_of_blocks
      by (first [apply length_normalise_block | assumption]).
    unfold LayerNorm.__call__.
    rewrite layer_normalised.
    + reflexivity.
    + unfold well_formed, block. cbn [shape data].
      rewrite length_firstn, length_skipn, Hlen.
      change (numel (c / Z.to_nat groups :: rest))
        with (group_size groups c rest).
      nia.
Qed.
End Edges.

(** ** Exact arithmetic: the statistics of the output *)

Section OutputStatistics.
Local Open Scope R_scope.

Lemma Rsum_centred (m i : R) (d : list R) :
  Rsum (map (fun v => (v - m) * i) d) = (Rsum d - INR (length d) * m) * i.
Proof.
  induction d as [|v d IH]; [simpl; lra|].
  cbn [map length]. rewrite S_INR.
  unfold Rsum in *. cbn [fold_right]. rewrite IH. lra.
Qed.

Lemma Rsum_scaled (a : R) (f : R -> R) (d : list R) :
  Rsum (map (fun v => a * f v) d) = a * Rsum (map f d).
Proof.
  induction d as [|v d IH]; [simpl; lra|].
  unfold Rsum in *. cbn [map fold_right]. rewrite IH. lra.
Qed.

Lemma Rsum_shifted (c : R) (d : list R) :
  Rsum (map (fun v => v + c) d) = Rsum d + INR (length d) * c.
Proof.
  induction d as [|v d IH]; [simpl; lra|].
  cbn [map length]. rewrite S_INR.
  unfold Rsum in *. cbn [fold_right]. rewrite IH. lra.
Qed.

Lemma Rsum_squares_nonneg (m : R) (d : list R) :
  0 <= Rsum (map (fun v => (v - m) * (v - m)) d).
Proof.
  induction d as [|v d IH]; [simpl; lra|].
  unfold Rsum in *. cbn [map fold_right].
  apply Rplus_le_le_0_compat; [|exact IH].
  apply Rle_0_sqr.
Qed.

Lemma INR_length_pos (d : list R) : d <> [] -> 0 < INR (length d).
Proof.
  intros Hd. apply lt_0_INR. destruct d; [contradiction|simpl; lia].
Qed.

Lemma Rvar_nonneg (d : list R) : d <> [] -> 0 <= Rvar d.
Proof.
  intros Hd. unfold Rvar, Rmean. rewrite length_map.
  apply Rmult_le_pos; [apply Rsum_squares_nonneg|].
  left. apply Rinv_0_lt_compat. now apply INR_length_pos.
Qed.

Lemma rsqrt_squared (t : R) : 0 < t -> 1 / sqrt t * (1 / sqrt t) = 1 / t.
Proof.
  intros Ht.
  assert (Hs : sqrt t * sqrt t = t) by (apply sqrt_sqrt; lra).
  assert (Hp : 0 < sqrt t) by now apply sqrt_lt_R0.
  rewrite <- Hs at 3. field. lra.
Qed.

Lemma normalise_block_mean (eps : R) (d : list R) :
  d <> [] -> Rmean (normalise_block eps d) = 0.
Proof.
  intros Hd. assert (Hn := INR_length_pos Hd).
  unfold normalise_block, Rmean at 1.
  cbn [mul sub mean_red ExactLib].
  rewrite Rsum_centred. unfold Rmean.
  replace (Rsum d - INR (length d) * (Rsum d / INR (length d))) with 0
    by (field; lra).
  unfold Rdiv. now rewrite !Rmult_0_l.
Qed.

Lemma normalise_block_var (eps : R) (d : list R) :
  d <> [] -> 0 < Rvar d + eps ->
  Rvar (normalise_block eps d) = Rvar d / (Rvar d + eps).
Proof.
  intros Hd Ht. assert (Hn := INR_length_pos Hd).
  assert (Hv := Rvar_nonneg Hd).
  unfold Rvar at 1. rewrite normalise_block_mean by exact Hd.
  unfold normalise_block, block_inv.
  cbn [mul sub add maximum rsqrt lit0 mean_red var_red ExactLib].
  rewrite Rmax_right by exact Hv.
  set (i := 1 / sqrt (Rvar d + eps)).
  rewrite map_map.
  rewrite (map_ext _ (fun v => i * i * ((v - Rmean d) * (v - Rmean d))))
    by (intros v; ring).
  unfold Rmean at 1. rewrite length_map, Rsum_scaled.
  unfold i. rewrite rsqrt_squared by exact Ht.
  assert (EV : Rsum (map (fun v => (v - Rmean d) * (v - Rmean d)) d)
               = Rvar d * INR (length d)).
  { unfold Rvar.
    change (Rmean (map (fun v => (v - Rmean d) * (v - Rmean d)) d))
      with (Rsum (map (fun v => (v - Rmean d) * (v - Rmean d)) d)
            / INR (length (map (fun v => (v - Rmean d) * (v - Rmean d)) d))).
    rewrite length_map. field. lra. }
  rewrite EV. field. split; lra.
Qed.

(** Without affine parameters, on a non-empty input whose variance plus
    [eps] is positive, the output of a [LayerNorm] has mean [0] and
    population variance [var(x) / (var(x) + eps)]: at most [1] for a
    non-negative [eps], and exactly [1] for [eps = 0]. *)
Theorem layernorm_output_statistics
    (shp : shape_arg) (eps : R) (w b : option (Array R)) (x : Array R)
    (key : option PRNGKey) :
  well_formed x ->
  data x <> [] ->
  0 < Rvar (data x) + eps ->
  exists y,
    LayerNorm.__call__ (LayerNorm.mk shp eps false false w b) x key
    = Ok (mkArray (shape x) y)
    /\ Rmean y = 0
    /\ Rvar y = Rvar (data x) / (Rvar (data x) + eps)
    /\ (0 <= eps -> Rvar y <= 1)
    /\ (eps = 0 -> Rvar y = 1).
Proof.
  intros Hx Hd Ht.
  exists (normalise_block eps (data x)).
  assert (Hv := Rvar_nonneg Hd).
  assert (E := normalise_block_var Hd Ht).
  split.
  { unfold LayerNorm.__call__.
    rewrite (@layer_normalised _ _ _ x Hx). reflexivity. }
  split; [now apply normalise_block_mean|].
  split; [exact E|]. rewrite E. split.
  - intros He. apply Rmult_le_reg_r with (r := Rvar (data x) + eps);
      [exact Ht|].
    unfold Rdiv. rewrite Rmult_assoc, Rinv_l by lra. lra.
  - intros ->. rewrite Rplus_0_r in *. field. lra.
Qed.

(** The same per group: without affine parameters, every non-empty group of
    the output of a [GroupNorm] whose variance plus [eps] is positive has
    mean [0]. *)
Theorem groupnorm_group_mean_zero
    (groups : Z) (channels : option Z) (eps : R) (w b : option (Array R))
    (x : Array R) (c : nat) (rest : list nat) (i : nat)
    (key : option PRNGKey) :
  well_formed x ->
  shape x = c :: rest ->
  (0 < groups)%Z ->
  (Z.of_nat c mod groups = 0)%Z ->
  (i < Z.to_nat groups)%nat ->
  (0 < group_size groups c rest)%nat ->
  0 < Rvar (block (group_size groups c rest) i (data x)) + eps ->
  exists out,
    GroupNorm.__call__ (GroupNorm.mk groups channels eps false w b) x key
    = Ok out
    /\ Rmean (block (group_size groups c rest) i (data out)) = 0.
Proof.
  intros Hx Hs HG Hm Hi Hk Hpos.
  assert (Hlen := @group_data_length R groups x c rest Hx Hs HG Hm).
  eexists. split.
  - unfold GroupNorm.__call__.
    rewrite (@group_normalised_Z _ _
               (GroupNorm.mk groups channels eps false w b)
               x c rest Hx Hs HG Hm).
    reflexivity.
  - cbn [data GroupNorm.eps GroupNorm.groups].
    rewrite block_of_blocks
      by (first [apply length_normalise_block | assumption]).
    apply normalise_block_mean.
    intros E. apply (f_equal (@length R)) in E.
    unfold block in E. rewrite length_firstn, length_skipn, Hlen in E.
    simpl in E. nia.
Qed.
End OutputStatistics.

(** ** Exact arithmetic: invariance under shifts and rescaling *)

Section Invariance.
Local Open Scope R_scope.

Lemma Rmean_shifted (c : R) (d : list R) :
  d <> [] -> Rmean (map (fun v => v + c) d) = Rmean d + c.
Proof.
  intros Hd. assert (Hn := INR_length_pos Hd).
  unfold Rmean. rewrite Rsum_shifted, length_map. field. lra.
Qed.

Lemma Rvar_shifted (c : R) (d : list R) :
  d <> [] -> Rvar (map (fun v => v + c) d) = Rvar d.
Proof.
  intros Hd. unfold Rvar. rewrite Rmean_shifted by exact Hd.
  rewrite map_map. f_equal. apply map_ext. intros v. ring.
Qed.

Lemma normalise_block_shifted (eps c : R) (d : list R) :
  normalise_block eps (map (fun v => v + c) d) = normalise_block eps d.
Proof.
  destruct d as [|v0 d]; [reflexivity|].
  assert (Hd : v0 :: d <> []) by discriminate.
  unfold normalise_block, block_inv.
  cbn [mul sub add maximum rsqrt lit0 mean_red var_red ExactLib].
  rewrite Rmean_shifted, Rvar_shifted by exact Hd.
  rewrite map_map. apply map_ext. intros v. ring.
Qed.

Lemma chunks_map (f : R -> R) (k n : nat) (d : list R) :
  chunks k n (map f d) = map (map f) (chunks k n d).
Proof.
  revert d; induction n as [|n IH]; intros d; [reflexivity|].
  cbn [chunks map]. now rewrite firstn_map, skipn_map, IH.
Qed.

(** Adding one constant to every element of the input leaves the outcome of
    a [LayerNorm] unchanged, affine parameters or not. *)
Theorem layernorm_shift_invariant
    (self : LayerNorm.t) (x : Array R) (c : R) (key : option PRNGKey) :
  well_formed x ->
  LayerNorm.__call__ self (pointwise (fun v => v + c) x) key
  = LayerNorm.__call__ self x key.
Proof.
  intros Hx.
  assert (Hx' : well_formed (pointwise (fun v => v + c) x)).
  { unfold well_formed, pointwise. cbn [shape data].
    now rewrite length_map. }
  unfold LayerNorm.__call__.
  rewrite (@layer_normalised _ _ self _ Hx').
  rewrite (@layer_normalised _ _ self _ Hx).
  unfold pointwise. cbn [shape data].
  now rewrite normalise_block_shifted.
Qed.

(** The same for a [GroupNorm] on an input whose leading axis is a multiple
    of [groups]. *)
Theorem groupnorm_shift_invariant
    (self : GroupNorm.t) (x : Array R) (c0 : nat) (rest : list nat) (c : R)
    (key : option PRNGKey) :
  well_formed x ->
  shape x = c0 :: rest ->
  (0 < GroupNorm.groups self)%Z ->
  (Z.of_nat c0 mod GroupNorm.groups self = 0)%Z ->
  GroupNorm.__call__ self (pointwise (fun v => v + c) x) key
  = GroupNorm.__call__ self x key.
Proof.
  intros Hx Hs HG Hm.
  assert (Hx' : well_formed (pointwise (fun v => v + c) x)).
  { unfold well_formed, pointwise. cbn [shape data].
    now rewrite length_map. }
  unfold GroupNorm.__call__.
  rewrite (@group_normalised_Z _ _ self _ c0 rest Hx' Hs HG Hm).
  rewrite (@group_normalised_Z _ _ self _ c0 rest Hx Hs HG Hm).
  unfold pointwise. cbn [shape data].
  rewrite chunks_map, map_map.
  rewrite (map_ext _ (normalise_block (GroupNorm.eps self)))
    by (intros d; apply normalise_block_shifted).
  reflexivity.
Qed.

Lemma Rmean_scaled (a : R) (d : list R) :
  Rmean (map (fun v => a * v) d) = a * Rmean d.
Proof.
  unfold Rmean. rewrite (Rsum_scaled a (fun v => v)), map_id, length_map.
  unfold Rdiv. ring.
Qed.

Lemma Rmean_map_scaled (a : R) (f : R -> R) (d : list R) :
  Rmean (map (fun v => a * f v) d) = a * Rmean (map f d).
Proof.
  unfold Rmean. rewrite Rsum_scaled, !length_map.
  unfold Rdiv. ring.
Qed.

Lemma Rvar_scaled (a : R) (d : list R) :
  Rvar (map (fun v => a * v) d) = a * a * Rvar d.
Proof.
  unfold Rvar. rewrite Rmean_scaled, map_map.
  rewrite (map_ext _ (fun v => a * a * ((v - Rmean d) * (v - Rmean d))))
    by (intros v; ring).
  apply Rmean_map_scaled.
Qed.

Lemma normalise_block_scaled (eps a : R) (d : list R) :
  0 < a -> 0 < eps ->
  normalise_block (a * a * eps) (map (fun v => a * v) d)
  = normalise_block eps d.
Proof.
  intros Ha He.
  destruct d as [|v0 d]; [reflexivity|].
  assert (Hd : v0 :: d <> []) by discriminate.
  assert (Hv := Rvar_nonneg Hd).
  unfold normalise_block, block_inv.
  cbn [mul sub add maximum rsqrt lit0 mean_red var_red ExactLib].
  rewrite Rmean_scaled, Rvar_scaled.
  rewrite !Rmax_right by nra.
  replace (a * a * Rvar (v0 :: d) + a * a * eps)
    with (Rsqr a * (Rvar (v0 :: d) + eps)) by (unfold Rsqr; ring).
  rewrite sqrt_mult by (first [apply Rle_0_sqr | lra]).
  rewrite sqrt_Rsqr by lra.
  assert (Hs : 0 < sqrt (Rvar (v0 :: d) + eps))
    by (apply sqrt_lt_R0; lra).
  rewrite map_map. apply map_ext. intros v. field. lra.
Qed.

(** Rescaling: multiplying every element of the input by [a > 0] and [eps]
    by [a * a] leaves the outcome of a [LayerNorm] unchanged. *)
Theorem layernorm_rescaling
    (shp : shape_arg) (eps a : R) (use_weight use_bias : bool)
    (w b : option (Array R)) (x : Array R) (key : option PRNGKey) :
  well_formed x ->
  0 < a ->
  0 < eps ->
  LayerNorm.__call__
    (LayerNorm.mk shp (a * a * eps) use_weight use_bias w b)
    (pointwise (fun v => a * v) x) key
  = LayerNorm.__call__ (LayerNorm.mk shp eps use_weight use_bias w b) x key.
Proof.
  intros Hx Ha He.
  assert (Hx' : well_formed (pointwise (fun v => a * v) x)).
  { unfold well_formed, pointwise. cbn [shape data].
    now rewrite length_map. }
  unfold LayerNorm.__call__.
  rewrite (@layer_normalised _ _ _ _ Hx').
  rewrite (@layer_normalised _ _ _ _ Hx).
  unfold pointwise.
  cbn [shape data LayerNorm.eps LayerNorm.use_weight LayerNorm.use_bias
       LayerNorm.weight LayerNorm.bias].
  now rewrite normalise_block_scaled.
Qed.
End Invariance.

(** ** The affine step *)

Section Affine.
Context {T : Type} {L : ArrayLib T}.

Lemma keepdims_repeat (s : list nat) : keepdims s = repeat 1 (length s).
Proof.
  unfold keepdims. induction s as [|a s IH]; simpl; [reflexivity|].
  now rewrite IH.
Qed.

Lemma forallb_singleton_axes (s : list nat) :
  forallb (fun p => (fst p =? snd p) || (fst p =? 1))
          (combine (repeat 1 (length s)) s) = true.
Proof.
  induction s as [|a s IH]; simpl; [reflexivity|].
  now rewrite IH, orb_true_r.
Qed.

(** [left_broadcast_to] on a parameter of shape [(n,)] and a target
    [(c, rest...)] of matching leading axis: every entry is repeated over
    the trailing axes. *)
Lemma left_broadcast_to_channels (ws : list T) (c : nat) (rest : list nat) :
  length ws = c ->
  left_broadcast_to (mkArray [c] ws) (c :: rest)
  = Ok (mkArray (c :: rest)
                (concat (map (fun w => repeat w (numel rest)) ws))).
Proof.
  intros Hc. unfold left_broadcast_to. cbn [shape data].
  replace (length (c :: rest) - length [c]) with (length rest)
    by (simpl; lia).
  unfold jnp_broadcast_to, broadcastable_to.
  cbn [shape data app].
  replace (length (c :: repeat 1 (length rest)) <=? length (c :: rest))
    with true
    by (symmetry; apply Nat.leb_le; simpl; now rewrite repeat_length).
  rewrite pad_shape_full by (simpl; now rewrite repeat_length).
  cbn [combine forallb fst snd].
  rewrite Nat.eqb_refl, forallb_singleton_axes. cbn [orb andb].
  unfold expand_to. cbn [shape data length].
  rewrite pad_shape_full by (simpl; now rewrite repeat_length).
  rewrite <- keepdims_repeat. now rewrite expand_groups.
Qed.

Lemma map2_scalar_l (f : T -> T -> T) (l : list T) (w : T) :
  map2 f (repeat w (length l)) l = map (f w) l.
Proof.
  induction l as [|x l IH]; simpl; [reflexivity|]. now rewrite IH.
Qed.

Lemma length_concat_repeats (k : nat) (l : list T) :
  length (concat (map (fun w => repeat w k) l)) = length l * k.
Proof.
  induction l as [|w l IH]; simpl; [reflexivity|].
  now rewrite length_app, repeat_length, IH.
Qed.

Lemma block_first (k : nat) (a r : list T) :
  length a = k -> block k 0 (a ++ r) = a.
Proof.
  intros Ha. unfold block. cbn [Nat.mul skipn].
  rewrite firstn_app, Ha, Nat.sub_diag. cbn [firstn].
  rewrite app_nil_r, <- Ha. apply firstn_all.
Qed.

Lemma block_next (k j : nat) (a r : list T) :
  length a = k -> block k (S j) (a ++ r) = block k j r.
Proof.
  intros Ha. unfold block.
  replace (S j * k) with (j * k + length a) by (simpl; lia).
  rewrite <- skipn_skipn.
  replace (skipn (length a) (a ++ r)) with r; [reflexivity|].
  rewrite skipn_app, Nat.sub_diag, skipn_all. reflexivity.
Qed.

(** Scaling and shifting block by block. *)
Lemma affine_blocks (k : nat) (dw db : T) (ws bs n : list T) (j : nat) :
  length bs = length ws ->
  length n = length ws * k ->
  j < length ws ->
  block k j
    (map2 add
       (map2 mul (concat (map (fun w => repeat w k) ws)) n)
       (concat (map (fun b => repeat b k) bs)))
  = map (fun v => add (mul (nth j ws dw) v) (nth j bs db)) (block k j n).
Proof.
  revert bs n j.
  induction ws as [|w ws IH]; intros bs n j Hb Hn Hj; [simpl in Hj; lia|].
  destruct bs as [|b bs]; [discriminate|].
  cbn [length] in Hb, Hn, Hj. cbn [map concat].
  rewrite <- (firstn_skipn k n).
  assert (H1 : length (firstn k n) = k) by (rewrite length_firstn; lia).
  assert (H2 : length (skipn k n) = length ws * k)
    by (rewrite length_skipn; lia).
  set (n1 := firstn k n) in *. set (n2 := skipn k n) in *.
  rewrite map2_app by (now rewrite repeat_length).
  replace (map2 mul (repeat w k) n1) with (map (mul w) n1)
    by (rewrite <- map2_scalar_l, H1; reflexivity).
  rewrite map2_app by (now rewrite length_map, repeat_length).
  replace (map2 add (map (mul w) n1) (repeat b k))
    with (map (fun v => add (mul w v) b) n1)
    by (rewrite <- H1, <- (length_map (mul w) n1), map2_repeat, map_map;
        reflexivity).
  destruct j as [|j].
  - rewrite !block_first by (now rewrite ?length_map). reflexivity.
  - rewrite !block_next by (now rewrite ?length_map).
    cbn [nth]. apply IH; lia.
Qed.

(** With [left_broadcast_to] as the spec describes it, the affine step of
    [GroupNorm.__call__] is per channel: on an input of shape
    [(c, rest...)] and parameters of shape [(c,)], channel [j] of the
    output is channel [j] of the normalised value scaled by [weight[j]] and
    shifted by [bias[j]], and the shape of [x] is kept. *)
Theorem groupnorm_channelwise_affine
    (groups : Z) (channels : option Z) (eps : T) (ws bs : list T)
    (x : Array T) (c : nat) (rest : list nat) (j : nat)
    (key : option PRNGKey) :
  well_formed x ->
  shape x = c :: rest ->
  (0 < groups)%Z ->
  (Z.of_nat c mod groups = 0)%Z ->
  length ws = c ->
  length bs = c ->
  j < c ->
  let self := GroupNorm.mk groups channels eps true
                (Some (mkArray [c] ws)) (Some (mkArray [c] bs)) in
  exists pre out,
    GroupNorm.normalised self x = Ok pre
    /\ GroupNorm.__call__ self x key = Ok out
    /\ shape out = shape x
    /\ block (numel rest) j (data out)
       = map (fun v => add (mul (nth j ws lit0) v) (nth j bs lit0))
             (block (numel rest) j (data pre)).
Proof.
  intros Hx Hs HG Hm Hw Hb Hj self.
  assert (Hlen := @group_data_length T groups x c rest Hx Hs HG Hm).
  assert (Hpre := @group_normalised_Z _ _ self x c rest Hx Hs HG Hm).
  cbn [GroupNorm.eps GroupNorm.groups self] in Hpre.
  set (pre := concat (map (normalise_block eps)
                          (chunks (group_size groups c rest)
                                  (Z.to_nat groups) (data x)))) in *.
  assert (Hn : length pre = c * numel rest).
  { unfold pre.
    rewrite length_concat_blocks with (k := group_size groups c rest).
    - rewrite chunks_length, <- Hlen. unfold well_formed in Hx.
      rewrite Hx, Hs. reflexivity.
    - eapply Forall_impl; [|apply chunks_blocks; exact Hlen].
      intros a Ha. cbn beta in *. now rewrite length_normalise_block. }
  exists (mkArray (shape x) pre).
  exists (mkArray (shape x)
            (map2 add
               (map2 mul (concat (map (fun w => repeat w (numel rest)) ws))
                     pre)
               (concat (map (fun b => repeat b (numel rest)) bs)))).
  assert (Hrep : forall l : list T,
             length l = c ->
             length (concat (map (fun w => repeat w (numel rest)) l))
             = numel (c :: rest)).
  { intros l Hl. now rewrite length_concat_repeats, Hl. }
  split; [exact Hpre|]. split; [|split; [reflexivity|]].
  - unfold GroupNorm.__call__. rewrite Hpre, bind_ok.
    cbn [GroupNorm.channelwise_affine GroupNorm.weight GroupNorm.bias
         self shape].
    rewrite Hs, !left_broadcast_to_channels by assumption.
    rewrite !bind_ok.
    rewrite binop_aligned by (first [now apply Hrep | exact Hn]).
    rewrite bind_ok.
    rewrite binop_aligned; [reflexivity| |now apply Hrep].
    rewrite length_map2; [now apply Hrep|].
    rewrite Hn. now apply Hrep.
  - cbn [data]. apply affine_blocks; congruence.
Qed.
End Affine.

(** ** Freshly constructed parameters and mismatched shapes *)

Section FreshParameters.
Context {T : Type} {L : ArrayLib T}.

Lemma canonical_of_nat (dims : list nat) :
  canonicalize_shape (ShapeSeq (map Z.of_nat dims)) = Ok dims.
Proof.
  unfold canonicalize_shape. now rewrite negative_of_nat, to_nat_of_nat.
Qed.

Lemma broadcast_shapes_vectors (a b : nat) :
  broadcast_shapes [a] [b]
  = if a =? b then Some [a]
    else if a =? 1 then Some [b]
    else if b =? 1 then Some [a]
    else None.
Proof. reflexivity. Qed.

(** A parameter of shape [(n,)] filled with [v], against a target
    [(c, rest...)]. *)
Lemma left_broadcast_to_fill (v : T) (n c : nat) (rest : list nat) :
  (n = c \/ n = 1 ->
   left_broadcast_to (mkArray [n] (repeat v n)) (c :: rest)
   = Ok (mkArray (c :: rest) (repeat v (numel (c :: rest)))))
  /\ (n <> c -> n <> 1 ->
      left_broadcast_to (mkArray [n] (repeat v n)) (c :: rest)
      = Raise (ValueError "Incompatible shapes for broadcasting")).
Proof.
  split.
  - intros [-> | ->].
    + rewrite left_broadcast_to_channels by apply repeat_length.
      now rewrite map_repeat, concat_repeat.
    + unfold left_broadcast_to. cbn [shape data].
      replace (length (c :: rest) - length [1]) with (length rest)
        by (simpl; lia).
      unfold jnp_broadcast_to, broadcastable_to. cbn [shape data app].
      replace (length (1 :: repeat 1 (length rest)) <=? length (c :: rest))
        with true
        by (symmetry; apply Nat.leb_le; simpl; now rewrite repeat_length).
      rewrite pad_shape_full by (simpl; now rewrite repeat_length).
      cbn [combine forallb fst snd].
      rewrite Nat.eqb_refl, orb_true_r, forallb_singleton_axes.
      cbn [andb]. unfold expand_to. cbn [shape data].
      rewrite pad_shape_full by (simpl; now rewrite repeat_length).
      rewrite <- keepdims_repeat.
      change (1 :: keepdims rest) with (keepdims (c :: rest)).
      change (repeat v 1) with [v].
      now rewrite expand_keepdims.
  - intros Hc H1. unfold left_broadcast_to. cbn [shape data].
    replace (length (c :: rest) - length [n]) with (length rest)
      by (simpl; lia).
    unfold jnp_broadcast_to, broadcastable_to. cbn [shape data app].
    rewrite pad_shape_full by (simpl; now rewrite repeat_length).
    cbn [combine forallb fst snd].
    apply Nat.eqb_neq in Hc, H1. rewrite Hc, H1. cbn [orb andb].
    now rewrite andb_false_r.
Qed.

(** A [LayerNorm] constructed for vectors of length [n], with weight and
    bias, applied to a vector of length [m]: equal lengths go through; a
    configured length of [1] is broadcast to the input; an input of length
    [1] is silently broadcast to the configured length, so the output has
    [n] elements and not [1]; any other mismatch raises the [TypeError] of
    the elementwise product. *)
Theorem layernorm_length_mismatch
    (eps : T) (n m : nat) (x : Array T) (key : option PRNGKey) :
  well_formed x ->
  shape x = [m] ->
  exists ln,
    snd (LayerNorm.__init__ (ShapeInt (Z.of_nat n)) eps true true None)
    = Ok ln
    /\ (n <> m -> n <> 1 -> m <> 1 ->
        LayerNorm.__call__ ln x key
        = Raise (TypeError "got incompatible shapes for broadcasting"))
    /\ (n = m \/ n = 1 ->
        exists out,
          LayerNorm.__call__ ln x key = Ok out /\ shape out = [m])
    /\ (m = 1 ->
        exists out,
          LayerNorm.__call__ ln x key = Ok out /\ shape out = [n]).
Proof.
  intros Hx Hs.
  assert (Hinit :
    snd (LayerNorm.__init__ (ShapeInt (Z.of_nat n)) eps true true None)
    = Ok (LayerNorm.mk (ShapeInt (Z.of_nat n)) eps true true
            (Some (mkArray [n] (repeat lit1 (n * 1))))
            (Some (mkArray [n] (repeat lit0 (n * 1)))))).
  { unfold LayerNorm.__init__, jnp_ones, jnp_zeros, full, canonicalize_shape.
    replace (Z.of_nat n <? 0)%Z with false by (symmetry; apply Z.ltb_ge; lia).
    cbn. now rewrite Nat2Z.id. }
  eexists. split; [exact Hinit|].
  unfold LayerNorm.__call__.
  rewrite (@layer_normalised _ _ _ x Hx), bind_ok.
  cbn [LayerNorm.use_weight LayerNorm.use_bias LayerNorm.weight
       LayerNorm.bias LayerNorm.eps].
  unfold binop. cbn [shape]. rewrite Hs, broadcast_shapes_vectors.
  split; [|split].
  - intros H1 H2 H3. apply Nat.eqb_neq in H1, H2, H3.
    now rewrite H1, H2, H3.
  - intros [-> | ->].
    + rewrite Nat.eqb_refl, bind_ok. cbn [shape].
      rewrite broadcast_shapes_same. eexists. split; reflexivity.
    + destruct (1 =? m) eqn:E.
      * apply Nat.eqb_eq in E. subst m. rewrite bind_ok. cbn [shape].
        rewrite broadcast_shapes_same. eexists. split; reflexivity.
      * cbn [Nat.eqb]. rewrite bind_ok. cbn [shape].
        rewrite broadcast_shapes_vectors, Nat.eqb_sym, E.
        cbn [Nat.eqb].
        destruct (m =? 1) eqn:E'; eexists; split; reflexivity.
  - intros ->. destruct (n =? 1) eqn:E.
    + apply Nat.eqb_eq in E. subst n. rewrite bind_ok. cbn [shape].
      rewrite broadcast_shapes_same. eexists. split; reflexivity.
    + cbn [Nat.eqb]. rewrite bind_ok. cbn [shape].
      rewrite broadcast_shapes_same. eexists. split; reflexivity.
Qed.
End FreshParameters.

Section FreshExact.
Local Open Scope R_scope.

Lemma map2_ones (y : list R) : map2 Rmult (repeat 1 (length y)) y = y.
Proof.
  induction y as [|v y IH]; simpl; [reflexivity|].
  rewrite IH. f_equal. lra.
Qed.

Lemma map2_zeros (y : list R) : map2 Rplus y (repeat 0 (length y)) = y.
Proof.
  induction y as [|v y IH]; simpl; [reflexivity|].
  rewrite IH. f_equal. lra.
Qed.

Lemma binop_ones (s : list nat) (y : list R) :
  length y = numel s ->
  binop Rmult (mkArray s (repeat 1 (numel s))) (mkArray s y)
  = Ok (mkArray s y).
Proof.
  intros Hy. rewrite binop_same by (first [apply repeat_length | exact Hy]).
  now rewrite <- Hy, map2_ones.
Qed.

Lemma binop_zeros (s : list nat) (y : list R) :
  length y = numel s ->
  binop Rplus (mkArray s y) (mkArray s (repeat 0 (numel s)))
  = Ok (mkArray s y).
Proof.
  intros Hy. rewrite binop_same by (first [apply repeat_length | exact Hy]).
  now rewrite <- Hy, map2_zeros.
Qed.

(** In exact arithmetic the parameters a [LayerNorm] is constructed with
    are neutral: built for the shape of [x], with or without weight and
    bias, it returns the normalised value itself. *)
Theorem layernorm_fresh_parameters_neutral
    (eps : R) (use_weight use_bias : bool) (x : Array R)
    (key : option PRNGKey) :
  well_formed x ->
  exists ln,
    snd (LayerNorm.__init__ (ShapeSeq (map Z.of_nat (shape x))) eps
                            use_weight use_bias None)
    = Ok ln
    /\ LayerNorm.__call__ ln x key
       = Ok (mkArray (shape x) (normalise_block eps (data x))).
Proof.
  intros Hx.
  assert (Hy : length (normalise_block eps (data x)) = numel (shape x)).
  { rewrite length_normalise_block. exact Hx. }
  unfold LayerNorm.__init__, jnp_ones, jnp_zeros, full.
  rewrite (@canonical_of_nat (shape x)).
  destruct use_weight, use_bias; cbn [bind snd];
    eexists; (split; [reflexivity|]);
    unfold LayerNorm.__call__;
    rewrite (@layer_normalised _ _ _ x Hx), bind_ok;
    cbn [LayerNorm.use_weight LayerNorm.use_bias LayerNorm.weight
         LayerNorm.bias LayerNorm.eps lit0 lit1 ExactLib];
    rewrite ?binop_ones by exact Hy; rewrite ?bind_ok;
    rewrite ?binop_zeros by exact Hy; reflexivity.
Qed.

(** With [left_broadcast_to] as the spec describes it: a [GroupNorm]
    constructed with affine parameters for [channels] channels returns, in
    exact arithmetic, the normalised value itself on an input with that many
    channels, and also, its parameters being broadcast, when it was
    constructed for a single channel; for any other channel count of the
    input the affine step raises a [ValueError]. *)
Theorem groupnorm_fresh_parameters
    (groups channels : Z) (eps : R) (x : Array R) (c : nat)
    (rest : list nat) (key : option PRNGKey) :
  well_formed x ->
  shape x = c :: rest ->
  (0 < groups)%Z ->
  (Z.of_nat c mod groups = 0)%Z ->
  (0 <= channels)%Z ->
  (channels mod groups = 0)%Z ->
  exists gn,
    GroupNorm.__init__ groups (Some channels) eps true = Ok gn
    /\ (channels = Z.of_nat c \/ channels = 1%Z ->
        GroupNorm.__call__ gn x key = GroupNorm.normalised gn x
        /\ succeeds (GroupNorm.__call__ gn x key) = true)
    /\ (channels <> Z.of_nat c -> channels <> 1%Z ->
        GroupNorm.__call__ gn x key
        = Raise (ValueError "Incompatible shapes for broadcasting")).
Proof.
  intros Hx Hs HG Hm Hc Hcm.
  set (n := Z.to_nat channels).
  assert (Hinit :
    GroupNorm.__init__ groups (Some channels) eps true
    = Ok (GroupNorm.mk groups (Some channels) eps true
            (Some (mkArray [n] (repeat 1 n)))
            (Some (mkArray [n] (repeat 0 n))))).
  { unfold GroupNorm.__init__, py_mod.
    replace (groups =? 0)%Z with false by (symmetry; apply Z.eqb_neq; lia).
    cbn [bind]. rewrite Hcm. cbn [Z.eqb negb andb].
    unfold jnp_ones, jnp_zeros, full, canonicalize_shape.
    cbn [GroupNorm.channels_shape].
    replace (channels <? 0)%Z with false by (symmetry; apply Z.ltb_ge; lia).
    cbn [bind numel fold_right]. fold n. now rewrite Nat.mul_1_r. }
  eexists. split; [exact Hinit|].
  set (gn := GroupNorm.mk groups (Some channels) eps true
               (Some (mkArray [n] (repeat 1 n)))
               (Some (mkArray [n] (repeat 0 n)))).
  assert (Hpre := @group_normalised_Z _ _ gn x c rest Hx Hs HG Hm).
  set (pre := concat (map (normalise_block (GroupNorm.eps gn))
                          (chunks (group_size (GroupNorm.groups gn) c rest)
                                  (Z.to_nat (GroupNorm.groups gn))
                                  (data x)))) in *.
  assert (Hn : length pre = numel (c :: rest)).
  { assert (Hlen := @group_data_length R groups x c rest Hx Hs HG Hm).
    unfold pre. cbn [GroupNorm.groups gn].
    rewrite length_concat_blocks with (k := group_size groups c rest).
    - rewrite chunks_length, <- Hlen. unfold well_formed in Hx.
      now rewrite Hx, Hs.
    - eapply Forall_impl; [|apply chunks_blocks; exact Hlen].
      intros a Ha. cbn beta in *. now rewrite length_normalise_block. }
  unfold GroupNorm.__call__. rewrite Hpre, bind_ok.
  cbn [GroupNorm.channelwise_affine GroupNorm.weight GroupNorm.bias gn shape].
  rewrite Hs.
  destruct (left_broadcast_to_fill 1 n c rest) as [Hw1 Hw2].
  destruct (left_broadcast_to_fill 0 n c rest) as [Hb1 Hb2].
  split.
  - intros Hch.
    assert (Hn' : n = c \/ n = 1%nat) by (unfold n; lia).
    rewrite (Hw1 Hn'), (Hb1 Hn'), !bind_ok.
    rewrite binop_ones by exact Hn. rewrite bind_ok.
    rewrite binop_zeros by exact Hn. split; reflexivity.
  - intros H1 H2.
    assert (Hn1 : n <> c) by (unfold n; lia).
    assert (Hn2 : n <> 1%nat) by (unfold n; lia).
    now rewrite (Hw2 Hn1 Hn2).
Qed.
End FreshExact.

(** ** The shape of the output *)

Section OutputShape.
Context {T : Type} {L : ArrayLib T}.

(** Without affine parameters a [LayerNorm] never raises on an array: the
    output has the shape and the element count of the input, so an empty
    input gives an empty output. *)
Theorem layernorm_output_well_formed
    (shp : shape_arg) (eps : T) (w b : option (Array T)) (x : Array T)
    (key : option PRNGKey) :
  well_formed x ->
  exists out,
    LayerNorm.__call__ (LayerNorm.mk shp eps false false w b) x key = Ok out
    /\ shape out = shape x
    /\ well_formed out
    /\ (data x = [] -> data out = []).
Proof.
  intros Hx. eexists. split.
  - unfold LayerNorm.__call__.
    rewrite (@layer_normalised _ _ _ x Hx). reflexivity.
  - cbn [shape data]. split; [reflexivity|]. split.
    + unfold well_formed. cbn [shape data].
      rewrite length_normalise_block. exact Hx.
    + intros ->. reflexivity.
Qed.
End OutputShape.

(** ** Instances of the further properties *)

Section FurtherInstances.
Local Open Scope R_scope.

Lemma groupnorm_regroup_guard_witness :
  well_formed mat42
  /\ shape mat42 = [4%nat; 2%nat]
  /\ (0 < 3)%Z
  /\ (succeeds (GroupNorm.normalised
                  (GroupNorm.mk 3 None 0 false None None) mat42) = true
      <-> ((Z.of_nat 4 mod 3 = 0)%Z \/ numel [2%nat] = 0%nat)).
Proof.
  do 3 (split; [reflexivity|]).
  apply (proj1 (@groupnorm_regroup_guard R ExactLib
                  (GroupNorm.mk 3 None 0 false None None)
                  mat42 4%nat [2%nat] eq_refl eq_refl eq_refl)).
Defined.

Lemma groupnorm_zero_groups_witness :
  GroupNorm.__init__ 0 (Some 4%Z) (1 / 100000) true = Raise ZeroDivisionError
  /\ exists gn,
       GroupNorm.__init__ 0 None (1 / 100000) false = Ok gn
       /\ GroupNorm.__call__ gn mat42 None = Raise ZeroDivisionError.
Proof.
  destruct (@groupnorm_zero_groups R ExactLib (1 / 100000) true 4%Z
              mat42 None) as (H1 & (gn & Hi & Hc) & _).
  split; [exact H1|]. exists gn. split; [exact Hi|].
  apply Hc. discriminate.
Defined.

Lemma groupnorm_constructed_invariants_witness :
  GroupNorm.__init__ 2 (Some 4%Z) (1 / 100000) true
  = Ok (GroupNorm.mk 2 (Some 4%Z) (1 / 100000) true
          (Some (mkArray [4%nat] [1; 1; 1; 1]))
          (Some (mkArray [4%nat] [0; 0; 0; 0])))
  /\ forall c, Some 4%Z = Some c -> (2 <> 0)%Z /\ (c mod 2 = 0)%Z.
Proof.
  split; [reflexivity|].
  apply (@groupnorm_constructed_invariants R ExactLib
           2%Z (Some 4%Z) (1 / 100000) true _ eq_refl).
Defined.

Lemma layernorm_constructed_invariants_witness :
  snd (LayerNorm.__init__ (ShapeSeq [4%Z]) (1 / 100000) true false None)
  = Ok (LayerNorm.mk (ShapeSeq [4%Z]) (1 / 100000) true false
          (Some (mkArray [4%nat] [1; 1; 1; 1])) None)
  /\ LayerNorm.shape
       (LayerNorm.mk (ShapeSeq [4%Z]) (1 / 100000) true false
          (Some (mkArray [4%nat] [1; 1; 1; 1])) None)
     = ShapeSeq [4%Z].
Proof.
  split; [reflexivity|].
  apply (@layernorm_constructed_invariants R ExactLib
           (ShapeSeq [4%Z]) (1 / 100000) true false None _ eq_refl).
Defined.

Lemma groupnorm_is_layernorm_per_group_witness :
  well_formed mat42
  /\ shape mat42 = [4%nat; 2%nat]
  /\ (0 < 2)%Z
  /\ (Z.of_nat 4 mod 2 = 0)%Z
  /\ (1 < Z.to_nat 2)%nat
  /\ exists out,
       GroupNorm.__call__
         (GroupNorm.mk 2 None 0 false None None) mat42 None = Ok out
       /\ LayerNorm.__call__
            (LayerNorm.mk ShapeNone 0 false false None None)
            (mkArray [2%nat; 2%nat] [5; 6; 7; 8]) None
          = Ok (mkArray [2%nat; 2%nat] (block 4 1 (data out))).
Proof.
  assert (Hi : (1 < Z.to_nat 2)%nat) by (apply Nat.ltb_lt; reflexivity).
  do 4 (split; [reflexivity|]). split; [exact Hi|].
  apply (@groupnorm_is_layernorm_per_group R ExactLib
           2%Z None 0 ShapeNone None None None None mat42 4%nat [2%nat]
           1%nat None None eq_refl eq_refl eq_refl eq_refl Hi).
Defined.

Lemma vec4_variance : Rvar (data vec4) = 5 / 4.
Proof.
  assert (Hm : Rmean [1; 2; 3; 4] = 5 / 2)
    by (unfold Rmean, Rsum; simpl; lra).
  unfold vec4, Rvar. cbn [data]. rewrite Hm.
  unfold Rmean, Rsum. simpl. lra.
Defined.

Lemma layernorm_output_statistics_witness :
  well_formed vec4
  /\ data vec4 <> []
  /\ 0 < Rvar (data vec4) + 0
  /\ exists y,
       LayerNorm.__call__
         (LayerNorm.mk (ShapeSeq [4%Z]) 0 false false None None) vec4 None
       = Ok (mkArray [4%nat] y)
       /\ Rmean y = 0.
Proof.
  assert (Hd : data vec4 <> []) by discriminate.
  assert (Hv : 0 < Rvar (data vec4) + 0) by (rewrite vec4_variance; lra).
  split; [reflexivity|]. split; [exact Hd|]. split; [exact Hv|].
  destruct (@layernorm_output_statistics (ShapeSeq [4%Z]) 0 None None
              vec4 None eq_refl Hd Hv) as (y & Hc & Hm & _).
  exists y. split; assumption.
Defined.

Lemma groupnorm_group_mean_zero_witness :
  well_formed mat42
  /\ shape mat42 = [4%nat; 2%nat]
  /\ (0 < 2)%Z
  /\ (Z.of_nat 4 mod 2 = 0)%Z
  /\ (1 < Z.to_nat 2)%nat
  /\ (0 < group_size 2 4 [2%nat])%nat
  /\ 0 < Rvar (block (group_size 2 4 [2%nat]) 1 (data mat42)) + 1 / 100000
  /\ exists out,
       GroupNorm.__call__
         (GroupNorm.mk 2 None (1 / 100000) false None None) mat42 None
       = Ok out
       /\ Rmean (block 4 1 (data out)) = 0.
Proof.
  assert (Hi : (1 < Z.to_nat 2)%nat) by (apply Nat.ltb_lt; reflexivity).
  assert (Hk : (0 < group_size 2 4 [2%nat])%nat)
    by (apply Nat.ltb_lt; reflexivity).
  assert (Hv : 0 < Rvar (block (group_size 2 4 [2%nat]) 1 (data mat42))
                   + 1 / 100000).
  { change (block (group_size 2 4 [2%nat]) 1 (data mat42))
      with [5; 6; 7; 8].
    assert (H := @Rvar_nonneg [5; 6; 7; 8]).
    assert (Hne : [5; 6; 7; 8] <> []) by discriminate.
    specialize (H Hne). lra. }
  do 4 (split; [reflexivity|]). split; [exact Hi|]. split; [exact Hk|].
  split; [exact Hv|].
  apply (@groupnorm_group_mean_zero 2%Z None (1 / 100000) None None mat42
           4%nat [2%nat] 1%nat None eq_refl eq_refl eq_refl eq_refl Hi Hk Hv).
Defined.

Lemma layernorm_shift_invariant_witness :
  well_formed vec4
  /\ LayerNorm.__call__
       (LayerNorm.mk (ShapeSeq [4%Z]) 0 false false None None)
       (pointwise (fun v => v + 10) vec4) None
     = LayerNorm.__call__
         (LayerNorm.mk (ShapeSeq [4%Z]) 0 false false None None) vec4 None.
Proof.
  split; [reflexivity|].
  apply (@layernorm_shift_invariant _ vec4 10 None eq_refl).
Defined.

Lemma groupnorm_shift_invariant_witness :
  well_formed mat42
  /\ shape mat42 = [4%nat; 2%nat]
  /\ (0 < 2)%Z
  /\ (Z.of_nat 4 mod 2 = 0)%Z
  /\ GroupNorm.__call__ (GroupNorm.mk 2 None 0 false None None)
       (pointwise (fun v => v + 10) mat42) None
     = GroupNorm.__call__ (GroupNorm.mk 2 None 0 false None None)
         mat42 None.
Proof.
  do 4 (split; [reflexivity|]).
  apply (@groupnorm_shift_invariant
           (GroupNorm.mk 2 None 0 false None None) mat42 4%nat [2%nat] 10
           None eq_refl eq_refl eq_refl eq_refl).
Defined.

Lemma layernorm_rescaling_witness :
  well_formed vec4
  /\ 0 < 3
  /\ 0 < 1 / 100000
  /\ LayerNorm.__call__
       (LayerNorm.mk (ShapeSeq [4%Z]) (3 * 3 * (1 / 100000))
                     false false None None)
       (pointwise (fun v => 3 * v) vec4) None
     = LayerNorm.__call__
         (LayerNorm.mk (ShapeSeq [4%Z]) (1 / 100000) false false None None)
         vec4 None.
Proof.
  assert (Ha : 0 < 3) by lra.
  assert (He : 0 < 1 / 100000) by lra.
  split; [reflexivity|]. split; [exact Ha|]. split; [exact He|].
  apply (@layernorm_rescaling (ShapeSeq [4%Z]) (1 / 100000) 3 false false
           None None vec4 None eq_refl Ha He).
Defined.

Lemma groupnorm_channelwise_affine_witness :
  well_formed mat42
  /\ shape mat42 = [4%nat; 2%nat]
  /\ (0 < 2)%Z
  /\ (Z.of_nat 4 mod 2 = 0)%Z
  /\ length [2; 3; 4; 5] = 4%nat
  /\ length [10; 20; 30; 40] = 4%nat
  /\ (3 < 4)%nat
  /\ exists pre out,
       GroupNorm.normalised
         (GroupNorm.mk 2 (Some 4%Z) 0 true
            (Some (mkArray [4%nat] [2; 3; 4; 5]))
            (Some (mkArray [4%nat] [10; 20; 30; 40]))) mat42 = Ok pre
       /\ GroupNorm.__call__
            (GroupNorm.mk 2 (Some 4%Z) 0 true
               (Some (mkArray [4%nat] [2; 3; 4; 5]))
               (Some (mkArray [4%nat] [10; 20; 30; 40]))) mat42 None
          = Ok out
       /\ block 2 3 (data out)
          = map (fun v => 5 * v + 40) (block 2 3 (data pre)).
Proof.
  assert (Hj : (3 < 4)%nat) by lia.
  do 6 (split; [reflexivity|]). split; [exact Hj|].
  destruct (@groupnorm_channelwise_affine R ExactLib 2%Z (Some 4%Z) 0
              [2; 3; 4; 5] [10; 20; 30; 40] mat42 4%nat [2%nat] 3%nat None
              eq_refl eq_refl eq_refl eq_refl eq_refl eq_refl Hj)
    as (pre & out & Hp & Hc & _ & Hb).
  exists pre, out. repeat split; assumption.
Defined.

Lemma layernorm_length_mismatch_witness :
  well_formed vec4
  /\ shape vec4 = [4%nat]
  /\ exists ln,
       snd (LayerNorm.__init__ (ShapeInt 3) (1 / 100000) true true None)
       = Ok ln
       /\ LayerNorm.__call__ ln vec4 None
          = Raise (TypeError "got incompatible shapes for broadcasting").
Proof.
  do 2 (split; [reflexivity|]).
  destruct (@layernorm_length_mismatch R ExactLib (1 / 100000) 3%nat 4%nat
              vec4 None eq_refl eq_refl) as (ln & Hi & Hr & _).
  exists ln. split; [exact Hi|]. apply Hr; discriminate.
Defined.

Lemma layernorm_fresh_parameters_neutral_witness :
  well_formed vec4
  /\ exists ln,
       snd (LayerNorm.__init__ (ShapeSeq [4%Z]) (1 / 100000) true true None)
       = Ok ln
       /\ LayerNorm.__call__ ln vec4 None
          = Ok (mkArray [4%nat] (normalise_block (1 / 100000) (data vec4))).
Proof.
  split; [reflexivity|].
  apply (@layernorm_fresh_parameters_neutral (1 / 100000) true true vec4
           None eq_refl).
Defined.

Lemma groupnorm_fresh_parameters_witness :
  well_formed mat42
  /\ shape mat42 = [4%nat; 2%nat]
  /\ (0 < 2)%Z
  /\ (Z.of_nat 4 mod 2 = 0)%Z
  /\ (0 <= 6)%Z
  /\ (6 mod 2 = 0)%Z
  /\ exists gn,
       GroupNorm.__init__ 2 (Some 6%Z) (1 / 100000) true = Ok gn
       /\ GroupNorm.__call__ gn mat42 None
          = Raise (ValueError "Incompatible shapes for broadcasting").
Proof.
  assert (H6 : (0 <= 6)%Z) by lia.
  do 4 (split; [reflexivity|]). split; [exact H6|].
  split; [reflexivity|].
  destruct (@groupnorm_fresh_parameters 2%Z 6%Z (1 / 100000) mat42 4%nat
              [2%nat] None eq_refl eq_refl eq_refl eq_refl H6 eq_refl)
    as (gn & Hi & _ & Hr).
  exists gn. split; [exact Hi|]. apply Hr; discriminate.
Defined.

Lemma layernorm_output_well_formed_witness :
  well_formed vec4
  /\ exists out,
       LayerNorm.__call__
         (LayerNorm.mk ShapeNone 0 false false None None) vec4 None = Ok out
       /\ shape out = [4%nat].
Proof.
  split; [reflexivity|].
  destruct (@layernorm_output_well_formed R ExactLib ShapeNone 0 None None
              vec4 None eq_refl) as (out & Hc & Hs & _).
  exists out. split; assumption.
Defined.
End FurtherInstances.
